(** * Tessera scheduler: a shallow embedding of the backend and its properties

    The development follows the three backend modules:
    - [backend/database.py]  (module [Database]): the store, one Rocq function
      per SQL statement, over tables held as lists and finite maps;
    - [backend/scheduler.py] (module [Sched]): the worker registry, job
      selection, dispatch and the completion / failure handlers;
    - [backend/main.py]      (module [Admission]): cost, quota check and job
      creation.

    Conventions.
    - A [datetime] is a [Z], the number of microseconds since the epoch; every
      call of [datetime.utcnow()] is an explicit argument of the function that
      makes it.
    - A Python [Decimal] is a coefficient and an exponent; arithmetic is exact
      (the 28-digit context precision is never reached by token amounts).
    - Python objects that are shared and mutated (the [WorkerProxy] instances)
      live in a heap addressed by references; the registry maps a worker id to
      a reference.
    - Store calls are total: connection faults of the database driver are not
      modelled.  Exceptions raised by the Python code itself (attribute and
      type errors on malformed data, HTTP errors) are.
    - The schema is not among the sources: the columns are the ones the
      statements name and [id] columns are serial.  The constraints and the
      column types that decide whether a statement is accepted are taken from
      the data model: the unique key and the plan reference of [users], the
      types of the artifact columns and of the columns [update_job] writes. *)

From stdpp Require Import base option list gmap strings pretty.
From Stdlib Require Import ZArith Lia.

Open Scope string_scope.
Open Scope Z_scope.

(** ** Decimals *)

Record Decimal := mkDec { dcoef : Z; dexp : Z }.

(** [Decimal("1.0")] is the coefficient 10 at exponent -1. *)
Definition dec_1_0 : Decimal := mkDec 10 (-1).
Definition dec_0_5 : Decimal := mkDec 5 (-1).
Definition dec_2_0 : Decimal := mkDec 20 (-1).

(** [Decimal(n)] for a Python [int]. *)
Definition dec_of_int (n : Z) : Decimal := mkDec n 0.

(** The coefficient of [d] when written at the exponent [e <= dexp d]. *)
Definition dec_at (e : Z) (d : Decimal) : Z := dcoef d * 10 ^ (dexp d - e).

(** [a + b]: the result carries the smaller exponent. *)
Definition dec_add (a b : Decimal) : Decimal :=
  let e := Z.min (dexp a) (dexp b) in
  mkDec (dec_at e a + dec_at e b) e.

(** Comparison by numerical value. *)
Definition dec_gtb (a b : Decimal) : bool :=
  let e := Z.min (dexp a) (dexp b) in dec_at e a >? dec_at e b.

Definition dec_eqb (a b : Decimal) : bool :=
  let e := Z.min (dexp a) (dexp b) in dec_at e a =? dec_at e b.

(** Number of digits after the decimal point in the printed value. *)
Definition fractional_digits (d : Decimal) : Z := Z.max 0 (- dexp d).

(** ** JSON values and Python dicts *)

#[local] Unset Elimination Schemes.
Inductive json :=
| JNull
| JBool (b : bool)
| JNum (d : Decimal)
| JStr (s : string)
| JArr (l : list json)
| JObj (kv : list (string * json)).
#[local] Set Elimination Schemes.

Definition JInt (n : Z) : json := JNum (dec_of_int n).

(** A dict is an association list holding one binding per key. *)
Fixpoint dict_get {A} (k : string) (d : list (string * A)) : option A :=
  match d with
  | [] => None
  | (k', v) :: r => if String.eqb k k' then Some v else dict_get k r
  end.

(** [d[k] = v] on an insertion-ordered dict: an existing key keeps its place. *)
Fixpoint dict_set {A} (k : string) (v : A) (d : list (string * A)) : list (string * A) :=
  match d with
  | [] => [(k, v)]
  | (k', v') :: r => if String.eqb k k' then (k', v) :: r else (k', v') :: dict_set k v r
  end.

(** [x.get(k, default)]; [None] is the [AttributeError] of a value that is
    not a dict. *)
Definition json_get (x : json) (k : string) (dflt : json) : option json :=
  match x with
  | JObj kv => Some (default dflt (dict_get k kv))
  | _ => None
  end.

(** Iterating a JSON value with [for x in v]: a list yields its items, a dict
    its keys, a string its characters; anything else is a [TypeError]. *)
Fixpoint chars (s : string) : list string :=
  match s with
  | EmptyString => []
  | String c r => String c EmptyString :: chars r
  end.

Definition json_iter (v : json) : option (list json) :=
  match v with
  | JArr l => Some l
  | JObj kv => Some (map (fun p => JStr (fst p)) kv)
  | JStr s => Some (map JStr (chars s))
  | _ => None
  end.

(** ** backend/database.py *)

Module Database.

(** *** Rows *)

Record Plan := mkPlan {
  plan_id : Z;
  daily_token_limit : Z;
  plan_priority : Z }.

Record User := mkUser {
  user_id : Z;
  platform : string;
  platform_user_id : string;
  ip_address : option string;
  user_plan_id : Z }.

(** A row of [SELECT u.*, p.daily_token_limit, p.priority FROM users u JOIN plans p]. *)
Record UserPlan := mkUserPlan {
  up_user : User;
  up_daily_token_limit : Z;
  up_priority : Z }.

Record Job := mkJob {
  id : Z;
  job_user_id : Z;
  frontend : string;
  bot_id : option string;
  capability : string;
  status : string;
  priority : Z;
  params : list (string * json);
  cost_tokens : Decimal;
  created_at : Z;
  metadata : json;
  queued_at : option Z;
  started_at : option Z;
  ended_at : option Z;
  worker_id : option string;
  execution_time_seconds : option json;
  error : option json }.

Record Artifact := mkArtifact {
  artifact_id : Z;
  artifact_job_id : Z;
  artifact_type : json;
  local_path : json;
  public_url : json;
  artifact_metadata : json;
  format : string }.

Record Usage := mkUsage {
  tokens_used : Decimal;
  jobs_completed : Z }.

(** The tables.  [usage_daily] is unique on [(user_id, date)], which the
    [ON CONFLICT] clause of [update_usage] relies on; the serial columns
    draw from the three sequences. *)
Record DB := mkDB {
  plans : list Plan;
  users : list User;
  jobs : list Job;
  artifacts : list Artifact;
  usage_daily : gmap (Z * Z) Usage;
  users_seq : Z;
  jobs_seq : Z;
  artifacts_seq : Z }.

Definition with_users (us : list User) (seq : Z) (db : DB) : DB :=
  mkDB (plans db) us (jobs db) (artifacts db) (usage_daily db)
       seq (jobs_seq db) (artifacts_seq db).

Definition with_jobs (js : list Job) (seq : Z) (db : DB) : DB :=
  mkDB (plans db) (users db) js (artifacts db) (usage_daily db)
       (users_seq db) seq (artifacts_seq db).

Definition with_artifacts (arts : list Artifact) (seq : Z) (db : DB) : DB :=
  mkDB (plans db) (users db) (jobs db) arts (usage_daily db)
       (users_seq db) (jobs_seq db) seq.

Definition with_usage (u : gmap (Z * Z) Usage) (db : DB) : DB :=
  mkDB (plans db) (users db) (jobs db) (artifacts db) u
       (users_seq db) (jobs_seq db) (artifacts_seq db).

(** *** get_or_create_user *)

Definition join_plan (db : DB) (u : User) : option UserPlan :=
  match List.find (fun p => plan_id p =? user_plan_id u) (plans db) with
  | Some p => Some (mkUserPlan u (daily_token_limit p) (plan_priority p))
  | None => None
  end.

(** First row of the join that satisfies [sel]. *)
Fixpoint fetch_user_plan (db : DB) (sel : User -> bool) (us : list User) : option UserPlan :=
  match us with
  | [] => None
  | u :: r =>
      if sel u then
        match join_plan db u with
        | Some row => Some row
        | None => fetch_user_plan db sel r
        end
      else fetch_user_plan db sel r
  end.

Definition same_identity (pf uid : string) (u : User) : bool :=
  String.eqb (platform u) pf && String.eqb (platform_user_id u) uid.

(** Modelled from the spec: the schema file is not among the sources; the
    data model gives [users] a uniqueness constraint on
    [(platform, platform_user_id)], so an INSERT of an identity that is
    already present is rejected. *)
Definition users_unique_violation (db : DB) (pf uid : string) : bool :=
  existsb (same_identity pf uid) (users db).

(** Modelled from the spec: the schema file is not among the sources; the
    data model makes [users.plan_id] a reference to a plan, so the INSERT,
    which writes [plan_id = 1], is rejected when no plan has id 1. *)
Definition users_plan_violation (db : DB) : bool :=
  negb (existsb (fun p => plan_id p =? 1) (plans db)).

(** The result is the store after the call and the row returned.  [None]
    stands for the exception of a rejected INSERT, which leaves the store as
    it was, and for a second [fetchrow] without a row; the request is
    answered 500 in both cases. *)
Definition get_or_create_user (db : DB) (pf uid : string) (ip : option string)
  : DB * option UserPlan :=
  match fetch_user_plan db (same_identity pf uid) (users db) with
  | Some row => (db, Some row)
  | None =>
      if users_unique_violation db pf uid || users_plan_violation db then (db, None) else
      let uid' := users_seq db in
      let db' := with_users (users db ++ [mkUser uid' pf uid ip 1]) (uid' + 1) db in
      (db', fetch_user_plan db' (fun u => user_id u =? uid') (users db'))
  end.

(** *** get_usage

    The call returns the driver's row object when a row exists, and an
    instance of the local class [Usage] (class attribute [tokens_used = 0])
    when none does. *)
Inductive UsageResult :=
| UsageRecord (row : Usage)
| UsageDummy.

Definition get_usage (db : DB) (uid : Z) (date : Z) : UsageResult :=
  match usage_daily db !! (uid, date) with
  | Some row => UsageRecord row
  | None => UsageDummy
  end.

(** [x.tokens_used].  An [asyncpg.Record] gives access by index, by key and
    through [get]; it has no attribute per column, so the attribute access
    raises [AttributeError] ([None]).  The dummy object has the attribute. *)
Definition getattr_tokens_used (x : UsageResult) : option Decimal :=
  match x with
  | UsageRecord _ => None
  | UsageDummy => Some (dec_of_int 0)
  end.

(** *** create_job *)

Record JobData := mkJobData {
  jd_user_id : Z;
  jd_frontend : string;
  jd_bot_id : option string;
  jd_capability : string;
  jd_status : string;
  jd_priority : Z;
  jd_params : list (string * json);
  jd_cost_tokens : Decimal;
  jd_reply_context : json;
  jd_created_at : Z }.

(** The tenth column of the INSERT, [metadata], receives [reply_context]. *)
Definition create_job (db : DB) (d : JobData) : DB * Z :=
  let jid := jobs_seq db in
  let row := mkJob jid (jd_user_id d) (jd_frontend d) (jd_bot_id d) (jd_capability d)
                   (jd_status d) (jd_priority d) (jd_params d) (jd_cost_tokens d)
                   (jd_created_at d) (jd_reply_context d)
                   None None None None None None in
  (with_jobs (jobs db ++ [row]) (jid + 1) db, jid).

(** *** update_job

    The keyword arguments of a call, in the order they are written; each
    names the column it assigns.  The type lists the columns the calls under
    [backend/] assign; the function itself writes whatever column name it is
    given. *)
Inductive Kwarg :=
| kw_status (v : string)
| kw_queued_at (v : Z)
| kw_started_at (v : Z)
| kw_ended_at (v : Z)
| kw_worker_id (v : string)
| kw_execution_time_seconds (v : json)
| kw_metadata (v : json)
| kw_error (v : json).

Definition set_column (j : Job) (k : Kwarg) : Job :=
  match k with
  | kw_status v =>
      mkJob (id j) (job_user_id j) (frontend j) (bot_id j) (capability j) v (priority j)
            (params j) (cost_tokens j) (created_at j) (metadata j) (queued_at j)
            (started_at j) (ended_at j) (worker_id j) (execution_time_seconds j) (error j)
  | kw_queued_at v =>
      mkJob (id j) (job_user_id j) (frontend j) (bot_id j) (capability j) (status j) (priority j)
            (params j) (cost_tokens j) (created_at j) (metadata j) (Some v)
            (started_at j) (ended_at j) (worker_id j) (execution_time_seconds j) (error j)
  | kw_started_at v =>
      mkJob (id j) (job_user_id j) (frontend j) (bot_id j) (capability j) (status j) (priority j)
            (params j) (cost_tokens j) (created_at j) (metadata j) (queued_at j)
            (Some v) (ended_at j) (worker_id j) (execution_time_seconds j) (error j)
  | kw_ended_at v =>
      mkJob (id j) (job_user_id j) (frontend j) (bot_id j) (capability j) (status j) (priority j)
            (params j) (cost_tokens j) (created_at j) (metadata j) (queued_at j)
            (started_at j) (Some v) (worker_id j) (execution_time_seconds j) (error j)
  | kw_worker_id v =>
      mkJob (id j) (job_user_id j) (frontend j) (bot_id j) (capability j) (status j) (priority j)
            (params j) (cost_tokens j) (created_at j) (metadata j) (queued_at j)
            (started_at j) (ended_at j) (Some v) (execution_time_seconds j) (error j)
  | kw_execution_time_seconds v =>
      mkJob (id j) (job_user_id j) (frontend j) (bot_id j) (capability j) (status j) (priority j)
            (params j) (cost_tokens j) (created_at j) (metadata j) (queued_at j)
            (started_at j) (ended_at j) (worker_id j) (Some v) (error j)
  | kw_metadata v =>
      mkJob (id j) (job_user_id j) (frontend j) (bot_id j) (capability j) (status j) (priority j)
            (params j) (cost_tokens j) (created_at j) v (queued_at j)
            (started_at j) (ended_at j) (worker_id j) (execution_time_seconds j) (error j)
  | kw_error v =>
      mkJob (id j) (job_user_id j) (frontend j) (bot_id j) (capability j) (status j) (priority j)
            (params j) (cost_tokens j) (created_at j) (metadata j) (queued_at j)
            (started_at j) (ended_at j) (worker_id j) (execution_time_seconds j) (Some v)
  end.

(** The [code] entry of the [error] column. *)
Definition error_code (j : Job) : option json :=
  match error j with
  | Some (JObj kv) => dict_get "code" kv
  | _ => None
  end.

(** [UPDATE jobs SET k1 = v1, ... WHERE id = $1]: the only condition is the
    id.  The function gives the store after a statement that is accepted;
    [update_job_refused] below tells when the call raises instead. *)
Definition update_row (job_id : Z) (kwargs : list Kwarg) (j : Job) : Job :=
  if id j =? job_id then fold_left set_column kwargs j else j.

Definition update_job (db : DB) (job_id : Z) (kwargs : list Kwarg) : DB :=
  with_jobs (map (update_row job_id kwargs) (jobs db)) (jobs_seq db) db.

(** The column a keyword argument names. *)
Definition column (k : Kwarg) : string :=
  match k with
  | kw_status _ => "status"
  | kw_queued_at _ => "queued_at"
  | kw_started_at _ => "started_at"
  | kw_ended_at _ => "ended_at"
  | kw_worker_id _ => "worker_id"
  | kw_execution_time_seconds _ => "execution_time_seconds"
  | kw_metadata _ => "metadata"
  | kw_error _ => "error"
  end.

(** Modelled from the spec: the schema file is not among the sources.  The
    data model gives a job the statuses of its state machine, an optional
    number of seconds ([float] in [models.py]) and structured blobs for
    [metadata] and [error]; the driver refuses a parameter that has not the
    Python type of its column, and only a dict or a list goes through
    [json.dumps]. *)
Definition job_statuses : list string :=
  ["CREATED"; "QUEUED"; "RUNNING"; "COMPLETED"; "FAILED"; "CANCELLED"].

Definition one_of (names : list string) (v : json) : bool :=
  match v with
  | JStr s => existsb (String.eqb s) names
  | _ => false
  end.

Definition optional_text (v : json) : bool :=
  match v with JStr _ | JNull => true | _ => false end.

Definition optional_number (v : json) : bool :=
  match v with JNum _ | JNull => true | _ => false end.

Definition structured (v : json) : bool :=
  match v with JObj _ | JArr _ => true | _ => false end.

Definition accepted_value (k : Kwarg) : bool :=
  match k with
  | kw_status v => one_of job_statuses (JStr v)
  | kw_execution_time_seconds v => optional_number v
  | kw_metadata v => structured v
  | kw_error v => structured v
  | _ => true
  end.

Fixpoint distinct (l : list string) : bool :=
  match l with
  | [] => true
  | c :: rest => negb (existsb (String.eqb c) rest) && distinct rest
  end.

(** When [update_job] raises instead of writing: without a keyword argument
    the statement reads [UPDATE jobs SET  WHERE id = $1], which the server
    rejects; a keyword names its column once; a value must be accepted for
    its column. *)
Definition update_job_refused (kwargs : list Kwarg) : bool :=
  match kwargs with
  | [] => true
  | _ => negb (distinct (map column kwargs) && forallb accepted_value kwargs)
  end.

(** *** count_queued_jobs_before *)

Definition created_at_of (db : DB) (job_id : Z) : option Z :=
  created_at <$> List.find (fun j => id j =? job_id) (jobs db).

Definition count_queued_jobs_before (db : DB) (job_id : Z) (prio : Z) : Z :=
  let earlier j :=
    match created_at_of db job_id with
    | Some t => created_at j <? t
    | None => false
    end in
  Z.of_nat (length (List.filter
    (fun j => String.eqb (status j) "QUEUED" &&
              ((priority j >? prio) || ((priority j =? prio) && earlier j)))
    (jobs db))).

(** *** get_next_queued_job

    [ORDER BY created_at ASC LIMIT 1]: the row of least [created_at]; among
    rows of equal [created_at] the model keeps the first in table order. *)
Fixpoint oldest (l : list Job) : option Job :=
  match l with
  | [] => None
  | j :: r =>
      match oldest r with
      | None => Some j
      | Some k => if created_at j <=? created_at k then Some j else Some k
      end
  end.

(** The WHERE clause names [status] and [priority] only; the [capability]
    argument does not occur in the query. *)
Definition queued_with_priority (prio : Z) (j : Job) : bool :=
  String.eqb (status j) "QUEUED" && (priority j =? prio).

Definition get_next_queued_job (db : DB) (prio : Z) (capability : list string) : option Job :=
  oldest (List.filter (queued_with_priority prio) (jobs db)).

(** *** create_artifact *)

Record ArtifactData := mkArtifactData {
  ad_job_id : Z;
  ad_type : json;
  ad_path : json;
  ad_url : json;
  ad_metadata : json }.

(** Modelled from the spec: the schema file is not among the sources.  The
    data model gives an artifact a type among the four capabilities and an
    optional [local_path] and [public_url]; the statement passes the three
    entries as they are, and the driver refuses one that is not text. *)
Definition capability_names : list string := ["image"; "text"; "audio"; "video"].

Definition create_artifact_refused (d : ArtifactData) : bool :=
  negb (one_of capability_names (ad_type d) && optional_text (ad_path d)
        && optional_text (ad_url d)).

(** The store after an accepted INSERT and the id returned. *)
Definition create_artifact (db : DB) (d : ArtifactData) : DB * Z :=
  let aid := artifacts_seq db in
  let row := mkArtifact aid (ad_job_id d) (ad_type d) (ad_path d) (ad_url d)
                        (ad_metadata d) "png" in
  (with_artifacts (artifacts db ++ [row]) (aid + 1) db, aid).

(** *** update_usage: insert, or add to the existing row. *)
Definition update_usage (db : DB) (uid : Z) (date : Z)
           (tokens_used_increment : Decimal) (jobs_completed_increment : Z) : DB :=
  let row :=
    match usage_daily db !! (uid, date) with
    | Some u => mkUsage (dec_add (tokens_used u) tokens_used_increment)
                        (jobs_completed u + jobs_completed_increment)
    | None => mkUsage tokens_used_increment jobs_completed_increment
    end in
  with_usage (<[(uid, date) := row]> (usage_daily db)) db.

(** *** get_user *)
Definition get_user (db : DB) (uid : Z) : option User :=
  List.find (fun u => user_id u =? uid) (users db).

End Database.

(** ** backend/scheduler.py *)

Module Sched.
Import Database.

(** *** WorkerProxy and WorkerManager *)

Record WorkerProxy := mkWorker {
  wid : string;
  base_url : string;
  capabilities : list string;
  wstatus : string;
  loaded_models : list string;
  last_heartbeat : Z }.

(** [WorkerProxy.__init__] *)
Definition new_worker (worker_id url : string) (caps : list string) (now : Z) : WorkerProxy :=
  mkWorker worker_id url caps "idle" [] now.

Definition set_wstatus (s : string) (w : WorkerProxy) : WorkerProxy :=
  mkWorker (wid w) (base_url w) (capabilities w) s (loaded_models w) (last_heartbeat w).

(** [(utcnow() - last_heartbeat).total_seconds() < 60] *)
Definition is_healthy (now : Z) (w : WorkerProxy) : bool :=
  now - last_heartbeat w <? 60 * 1000000.

(** What the HTTP client observed for one [POST /worker/run_job]. *)
Inductive Exchange :=
| TransportError (msg : string)
| Timeout (msg : string)
| Response (status_code : Z) (body : option json).

Definition is_success (code : Z) : bool := (200 <=? code) && (code <=? 299).

(** [WorkerProxy.run_job]: the parsed body, or the text of the exception
    raised by the client, by [raise_for_status] (any status that is not
    2xx) or by [resp.json()] (a body that is not JSON). *)
Definition run_job (x : Exchange) : json + string :=
  match x with
  | TransportError msg => inr msg
  | Timeout msg => inr msg
  | Response code body =>
      if is_success code then
        match body with
        | Some v => inl v
        | None => inr "Expecting value"
        end
      else inr "HTTPStatusError"
  end.

(** The worker calls that do not return a body: a transport error, a
    timeout, a status that is not 2xx, a body that does not parse. *)
Definition rpc_failed (x : Exchange) : bool :=
  match x with
  | TransportError _ => true
  | Timeout _ => true
  | Response code body =>
      negb (is_success code) || match body with None => true | Some _ => false end
  end.

(** The objects allocated so far, and the manager's dict from worker id to
    the object registered last under that id. *)
Record Registry := mkRegistry {
  heap : list WorkerProxy;
  workers : list (string * nat) }.

(** [self.workers[worker_id] = WorkerProxy(worker_id, url, capabilities)] *)
Definition register_worker (r : Registry) (worker_id url : string)
           (caps : list string) (now : Z) : Registry :=
  mkRegistry (heap r ++ [new_worker worker_id url caps now])
             (dict_set worker_id (length (heap r)) (workers r)).

(** The record the manager holds for a worker id. *)
Definition worker_of (r : Registry) (worker_id : string) : option WorkerProxy :=
  match dict_get worker_id (workers r) with
  | Some ref => heap r !! ref
  | None => None
  end.

(** [worker.status = s] on the object behind [ref]. *)
Definition assign_status (r : Registry) (ref : nat) (s : string) : Registry :=
  mkRegistry (alter (set_wstatus s) ref (heap r)) (workers r).

(** *** Scheduler *)

Fixpoint first_idle (now : Z) (hp : list WorkerProxy) (refs : list (string * nat)) : option nat :=
  match refs with
  | [] => None
  | (_, ref) :: rest =>
      match hp !! ref with
      | Some w =>
          if String.eqb (wstatus w) "idle" && is_healthy now w then Some ref
          else first_idle now hp rest
      | None => first_idle now hp rest
      end
  end.

Definition find_idle_worker (r : Registry) (now : Z) : option nat :=
  first_idle now (heap r) (workers r).

Fixpoint first_queued (db : DB) (caps : list string) (tiers : list Z) : option Job :=
  match tiers with
  | [] => None
  | p :: rest =>
      match get_next_queued_job db p caps with
      | Some job => Some job
      | None => first_queued db caps rest
      end
  end.

Definition select_next_job (db : DB) (worker : WorkerProxy) : option Job :=
  first_queued db (capabilities worker) [3; 2; 1; 0].

(** [handle_job_failure] *)
Definition handle_job_failure (db : DB) (job : Job) (error_code message : string)
           (now : Z) : DB :=
  update_job db (id job)
    [kw_status "FAILED"; kw_ended_at now;
     kw_error (JObj [("code", JStr error_code); ("message", JStr message)])].

(** The loop over [artifacts_data]: the store after the rows created so
    far, and the ids collected, or the exception of an item that is not a
    dict or whose row the store refuses. *)
Fixpoint save_artifacts (db : DB) (job : Job) (items : list json) (ids : list Z)
  : DB * (list Z + string) :=
  match items with
  | [] => (db, inl ids)
  | a :: rest =>
      match json_get a "type" (JStr "image"), json_get a "path" JNull,
            json_get a "url" JNull, json_get a "metadata" (JObj []) with
      | Some ty, Some path, Some url, Some md =>
          let d := mkArtifactData (id job) ty path url md in
          if create_artifact_refused d then (db, inr "invalid input for query argument")
          else
            let '(db', aid) := create_artifact db d in
            save_artifacts db' job rest (ids ++ [aid])
      | _, _, _, _ => (db, inr "object has no attribute 'get'")
      end
  end.

(** [handle_job_completion]: the store when the handler returns or raises,
    and the exception if it raised (exception texts are abridged: only the
    fact that one was raised matters to the caller's [except]). *)
Definition handle_job_completion (db : DB) (job : Job) (response : json)
           (now : Z) (today : Z) : DB * option string :=
  match json_get response "artifacts" (JArr []),
        json_get response "execution_time_seconds" (JInt 0) with
  | Some artifacts_data, Some execution_time =>
      match json_iter artifacts_data with
      | None => (db, Some "object is not iterable")
      | Some items =>
          match save_artifacts db job items [] with
          | (db1, inr e) => (db1, Some e)
          | (db1, inl artifact_ids) =>
              let kwargs :=
                [kw_status "COMPLETED"; kw_ended_at now;
                 kw_execution_time_seconds execution_time;
                 kw_metadata (JObj [("artifact_ids", JArr (map JInt artifact_ids))])] in
              if update_job_refused kwargs
              then (db1, Some "invalid input for query argument")
              else
                let db2 := update_job db1 (id job) kwargs in
                match get_user db2 (job_user_id job) with
                | None => (db2, Some "'NoneType' object is not subscriptable")
                | Some user =>
                    (update_usage db2 (user_id user) today (cost_tokens job) 1, None)
                end
          end
      end
  | _, _ => (db, Some "object has no attribute 'get'")
  end.

(** The clock readings of one dispatch. *)
Record Clock := mkClock {
  t_started : Z;
  t_completed : Z;
  today : Z;
  t_failed : Z }.

(** [dispatch_job] up to the suspension at the worker call. *)
Definition dispatch_job_begin (db : DB) (r : Registry) (ref : nat) (job : Job) (c : Clock)
  : DB * Registry :=
  let r1 := assign_status r ref "busy" in
  let worker_id := match heap r !! ref with Some w => wid w | None => "" end in
  (update_job db (id job)
     [kw_status "RUNNING"; kw_started_at (t_started c); kw_worker_id worker_id], r1).

(** [dispatch_job] from the return of the worker call: [try], [except] and
    [finally]. *)
Definition dispatch_job_end (db : DB) (r : Registry) (ref : nat) (job : Job)
           (x : Exchange) (c : Clock) : DB * Registry :=
  let db' :=
    match run_job x with
    | inl response =>
        match handle_job_completion db job response (t_completed c) (today c) with
        | (db1, None) => db1
        | (db1, Some e) => handle_job_failure db1 job "DISPATCH_ERROR" e (t_failed c)
        end
    | inr e => handle_job_failure db job "DISPATCH_ERROR" e (t_failed c)
    end in
  (db', assign_status r ref "idle").

Definition dispatch_job (db : DB) (r : Registry) (ref : nat) (job : Job)
           (x : Exchange) (c : Clock) : DB * Registry :=
  let '(db1, r1) := dispatch_job_begin db r ref job c in
  dispatch_job_end db1 r1 ref job x c.

(** *** The dispatch loop

    One pass of [start_dispatch_loop]: [asyncio.create_task] only records
    the coroutine; its body starts at a later suspension of the loop.  The
    state holds the tasks created and not yet started, and the tasks
    suspended at their worker call. *)
Record World := mkWorld {
  store : DB;
  registry : Registry;
  created_tasks : list (nat * Job);
  running_tasks : list (nat * Job) }.

Definition loop_pass (w : World) (now : Z) : World :=
  match find_idle_worker (registry w) now with
  | None => w
  | Some ref =>
      match heap (registry w) !! ref with
      | None => w
      | Some worker =>
          match select_next_job (store w) worker with
          | None => w
          | Some job =>
              mkWorld (store w) (registry w) (created_tasks w ++ [(ref, job)])
                      (running_tasks w)
          end
      end
  end.

(** The oldest created task runs to its suspension at the worker call: the
    worker object is marked busy as the task starts, and the UPDATE to
    RUNNING, a store call of its own, is applied in the same step. *)
Definition start_task (w : World) (c : Clock) : World :=
  match created_tasks w with
  | [] => w
  | (ref, job) :: rest =>
      let '(db', r') := dispatch_job_begin (store w) (registry w) ref job c in
      mkWorld db' r' rest (running_tasks w ++ [(ref, job)])
  end.

(** The worker call of the oldest suspended task ends with [x]; the task
    runs to its end. *)
Definition finish_task (w : World) (x : Exchange) (c : Clock) : World :=
  match running_tasks w with
  | [] => w
  | (ref, job) :: rest =>
      let '(db', r') := dispatch_job_end (store w) (registry w) ref job x c in
      mkWorld db' r' (created_tasks w) rest
  end.

End Sched.

(** ** backend/main.py *)

Module Admission.
Import Database.

Record JobRequest := mkJobRequest {
  req_frontend : string;
  req_bot_id : option string;
  req_capability : string;
  req_user_ref : string;
  req_params : list (string * json);
  req_reply_context : option (list (string * json)) }.

(** [job_id] is [str(job.id)]; the model keeps the number. *)
Record JobResponse := mkJobResponse {
  resp_job_id : Z;
  resp_status : string;
  estimated_time_seconds : Z;
  resp_cost_tokens : Decimal;
  queue_position : Z }.

(** What the caller receives: the response model, or an error status.  An
    exception that no handler catches is answered with status 500. *)
Inductive HttpResult :=
| Http200 (r : JobResponse)
| HttpError (status_code : Z) (detail : string).

Definition internal_server_error : HttpResult := HttpError 500 "Internal Server Error".

(** [calculate_token_cost]: [params.get("capability") == "image"]. *)
Definition calculate_token_cost (params : list (string * json)) : Decimal :=
  match dict_get "capability" params with
  | Some (JStr c) => if String.eqb c "image" then dec_1_0 else dec_0_5
  | _ => dec_0_5
  end.

Definition estimate_job_time (queue_position : Z) : Z := (queue_position + 1) * 20.

(** [s.split(":")[-1]]; 58 is the code of the colon. *)
Fixpoint last_field (cur s : string) : string :=
  match s with
  | EmptyString => cur
  | String c r =>
      if Ascii.eqb c (Ascii.ascii_of_nat 58) then last_field EmptyString r
      else last_field (cur +:+ String c EmptyString) r
  end.

(** [datetime.utcnow().date()], as a day number. *)
Definition date_of (now : Z) : Z := now / 86400000000.

(** The limit read from the joined row; the default of
    [user.get('daily_token_limit', 20)] is never used, the column being
    part of every row of the join. *)
Definition limit_of (user : UserPlan) : Z := up_daily_token_limit user.

(** [create_job].  [now] stands for the three clock readings of a request
    (the date of the usage row, [created_at] and [queued_at]), taken equal.
    The row receives [float(cost)], which is exact for 1.0 and 0.5: the model
    writes the same number. *)
Definition create_job (db : DB) (request : JobRequest) (now : Z) : DB * HttpResult :=
  let pf := req_frontend request in
  let uid := last_field EmptyString (req_user_ref request) in
  match get_or_create_user db pf uid None with
  | (db1, None) => (db1, internal_server_error)
  | (db1, Some user) =>
      let usage_today := get_usage db1 (user_id (up_user user)) (date_of now) in
      let limit := limit_of user in
      let cost := calculate_token_cost (req_params request) in
      match getattr_tokens_used usage_today with
      | None => (db1, internal_server_error)
      | Some used =>
          if dec_gtb (dec_add used cost) (dec_of_int limit) then
            (db1, HttpError 402 "Insufficient quota")
          else
            let job_data :=
              mkJobData (user_id (up_user user)) (req_frontend request) (req_bot_id request)
                        (req_capability request) "CREATED" (up_priority user)
                        (req_params request) cost
                        (match req_reply_context request with
                         | Some d => JObj d
                         | None => JNull
                         end)
                        now in
            let '(db2, job_id) := Database.create_job db1 job_data in
            let db3 := update_job db2 job_id [kw_status "QUEUED"; kw_queued_at now] in
            let queue_pos := count_queued_jobs_before db3 job_id (jd_priority job_data) in
            (db3, Http200 (mkJobResponse job_id "QUEUED" (estimate_job_time queue_pos)
                                         cost queue_pos))
      end
  end.

(** The heartbeat endpoint: [worker_data['worker_id']] with the defaults of
    the two optional entries. *)
Definition heartbeat (r : Sched.Registry) (worker_id : string) (url : option string)
           (caps : option (list string)) (now : Z) : Sched.Registry :=
  Sched.register_worker r worker_id (default "http://localhost:8188" url)
                        (default ["image"] caps) now.

End Admission.

(** ** Concrete stores and registries used by the scenarios *)

Module Scenario.
Import Database Sched Admission.

Definition plan_free : Plan := mkPlan 1 20 0.

Definition user42 : User := mkUser 1 "telegram" "42" None 1.

Definition empty_db : DB := mkDB [plan_free] [] [] [] ∅ 1 1 1.

Definition queued_job (jid : Z) (cap : string) (prio : Z) (t : Z) : Job :=
  mkJob jid 1 "telegram" None cap "QUEUED" prio [("capability", JStr cap)]
        (calculate_token_cost [("capability", JStr cap)]) t JNull (Some t)
        None None None None None.

Definition db_with (js : list Job) : DB :=
  mkDB [plan_free] [user42] js [] ∅ 2 (1 + Z.of_nat (length js)) 1.

(** One registered worker, heartbeat at time 0. *)
Definition one_worker (worker_id : string) (caps : list string) : Registry :=
  register_worker (mkRegistry [] []) worker_id "http://worker:9000" caps 0.

Definition clock : Clock := mkClock 10 20 0 30.

(** Worker answers. *)
Definition body_completed : json :=
  JObj [("status", JStr "completed"); ("execution_time_seconds", JInt 5);
        ("artifacts", JArr [JObj [("type", JStr "image"); ("path", JStr "/tmp/dummy.png")]])].

Definition body_failed : json :=
  JObj [("status", JStr "failed");
        ("error", JObj [("code", JStr "OOM"); ("message", JStr "out of memory")])].

(** Requests. *)
Definition request (cap : string) (params : list (string * json)) : JobRequest :=
  mkJobRequest "telegram" (Some "tg-bot-1") cap "telegram:42" params None.

(** Capability routing: an image job and a worker for text. *)
Definition image_job : Job := queued_job 1 "image" 0 1.
Definition text_worker : Registry := one_worker "w-txt" ["text"].
Definition txt : WorkerProxy := new_worker "w-txt" "http://worker:9000" ["text"] 0.
Definition img_worker : Registry := one_worker "w-img" ["image"].
Definition img : WorkerProxy := new_worker "w-img" "http://worker:9000" ["image"] 0.

(** Capability and priority: an image job of priority 3 and a younger text
    job of priority 0. *)
Definition job_img3 : Job := queued_job 1 "image" 3 1.
Definition job_txt0 : Job := queued_job 2 "text" 0 2.

(** Priority interleaving: A (priority 0, t = 1), B (2, t = 2), C (2, t = 3). *)
Definition job_A : Job := queued_job 1 "image" 0 1.
Definition job_B : Job := queued_job 2 "image" 2 2.
Definition job_C : Job := queued_job 3 "image" 2 3.

(** The ids in the order one worker is given them: select, dispatch to the
    end, select again. *)
Fixpoint dispatch_order (n : nat) (db : DB) (r : Registry) (ref : nat)
         (x : Exchange) (c : Clock) : list Z :=
  match n with
  | O => []
  | S n' =>
      match heap r !! ref with
      | None => []
      | Some worker =>
          match select_next_job db worker with
          | None => []
          | Some job =>
              let '(db', r') := dispatch_job db r ref job x c in
              id job :: dispatch_order n' db' r' ref x c
          end
      end
  end.

(** One queued image job, one idle image worker, no task yet. *)
Definition world0 : World := mkWorld (db_with [image_job]) img_worker [] [].

(** Two passes of the dispatch loop, then the two tasks they created run,
    and both worker calls return [body_completed]. *)
Definition world_two_passes : World := loop_pass (loop_pass world0 5) 6.

Definition world_both_done : World :=
  finish_task
    (finish_task (start_task (start_task world_two_passes clock) clock)
                 (Response 200 (Some body_completed)) clock)
    (Response 200 (Some body_completed)) clock.

(** Two queued jobs and one worker.  The loop dispatches a job to the worker;
    thirty seconds later, the job still running, the worker's heartbeat
    arrives; then the loop makes its next pass and the task it creates
    starts. *)
Definition world_busy : World :=
  start_task (loop_pass (mkWorld (db_with [job_A; job_B]) img_worker [] []) 5) clock.

Definition world_after_heartbeat : World :=
  mkWorld (store world_busy)
          (heartbeat (registry world_busy) "w-img" (Some "http://worker:9000")
                     (Some ["image"]) 30000000)
          (created_tasks world_busy) (running_tasks world_busy).

Definition world_double_booked : World :=
  start_task (loop_pass world_after_heartbeat 30000001) clock.

(** Quota: a usage row of 19.5 tokens for user 1 on day 0. *)
Definition db_used_19_5 : DB :=
  mkDB [plan_free] [user42] [] [] {[ (1, 0) := mkUsage (mkDec 195 (-1)) 19 ]} 2 1 1.

(** A plan without tokens, and no usage row. *)
Definition db_limit_0 : DB := mkDB [mkPlan 1 0 0] [user42] [] [] ∅ 2 1 1.

(** A store whose only job is [COMPLETED]. *)
Definition completed_job : Job :=
  mkJob 1 1 "telegram" None "image" "COMPLETED" 0 [("capability", JStr "image")]
        dec_1_0 1 (JObj [("artifact_ids", JArr [JInt 1])]) (Some 1)
        (Some 10) (Some 20) (Some "w-img") (Some (JInt 5)) None.

(** The row of a job id. *)
Definition job_row (db : DB) (job_id : Z) : option Job :=
  List.find (fun j => id j =? job_id) (jobs db).

End Scenario.

(** ** Well-formedness of the serial columns and of worker answers *)

Module Shape.
Import Database Sched Admission.

(** The sequence of a serial column lies above every id handed out. *)
Definition users_fresh (db : DB) : bool :=
  forallb (fun u => user_id u <? users_seq db) (users db).

Definition jobs_fresh (db : DB) : bool :=
  forallb (fun j => id j <? jobs_seq db) (jobs db).

(** [isinstance(v, dict)] *)
Definition is_dict (v : json) : bool :=
  match v with JObj _ => true | _ => false end.

(** The row holds the value a keyword argument assigns to its column. *)
Definition holds (j : Job) (k : Kwarg) : Prop :=
  match k with
  | kw_status v => status j = v
  | kw_queued_at v => queued_at j = Some v
  | kw_started_at v => started_at j = Some v
  | kw_ended_at v => ended_at j = Some v
  | kw_worker_id v => worker_id j = Some v
  | kw_execution_time_seconds v => execution_time_seconds j = Some v
  | kw_metadata v => metadata j = v
  | kw_error v => error j = Some v
  end.

(** Two rows hold the same value in the column a keyword argument names. *)
Definition same_column (k : Kwarg) (j j' : Job) : Prop :=
  match k with
  | kw_status _ => status j' = status j
  | kw_queued_at _ => queued_at j' = queued_at j
  | kw_started_at _ => started_at j' = started_at j
  | kw_ended_at _ => ended_at j' = ended_at j
  | kw_worker_id _ => worker_id j' = worker_id j
  | kw_execution_time_seconds _ => execution_time_seconds j' = execution_time_seconds j
  | kw_metadata _ => metadata j' = metadata j
  | kw_error _ => error j' = error j
  end.

(** Two rows hold the same values in the columns written at creation only. *)
Definition same_creation (j j' : Job) : Prop :=
  id j' = id j /\ job_user_id j' = job_user_id j /\ frontend j' = frontend j /\
  bot_id j' = bot_id j /\ capability j' = capability j /\ priority j' = priority j /\
  params j' = params j /\ cost_tokens j' = cost_tokens j /\ created_at j' = created_at j.

(** An artifact item whose row the store accepts: a dict whose type (image
    when it names none) is a capability and whose path and url (null when
    missing) are text or null. *)
Definition accepted_item (v : json) : bool :=
  match v with
  | JObj kv =>
      one_of capability_names (default (JStr "image") (dict_get "type" kv))
      && optional_text (default JNull (dict_get "path" kv))
      && optional_text (default JNull (dict_get "url" kv))
  | _ => false
  end.

(** No [":"] in the string. *)
Fixpoint no_colon (s : string) : bool :=
  match s with
  | EmptyString => true
  | String c r => negb (Ascii.eqb c (Ascii.ascii_of_nat 58)) && no_colon r
  end.

(** The usage row a completion leaves for a job: [update_usage] applied to
    what the table held. *)
Definition billed (usage : gmap (Z * Z) Usage) (job : Job) (day : Z) : gmap (Z * Z) Usage :=
  usage_daily (update_usage (mkDB [] [] [] [] usage 0 0 0) (job_user_id job) day
                            (cost_tokens job) 1).

(** [db'] has the job rows of [db], row for row, except that rows of the job
    [job_id] may have been rewritten (their id stays). *)
Definition touches_only (job_id : Z) (db db' : DB) : Prop :=
  length (jobs db') = length (jobs db) /\
  forall (n : nat) (row : Job),
    jobs db !! n = Some row ->
    exists row', jobs db' !! n = Some row' /\ id row' = id row /\
                 (id row <> job_id -> row' = row).

End Shape.

(** ** worker/comfyui, worker/koboldcpp, worker/whisper: the run_job endpoints *)

Module Workers.
Import Database Sched.

(** The payload [dispatch_job] posts: [str(job['id'])], the params and the
    timeout. *)
Definition dispatch_payload (job : Job) : list (string * json) :=
  [("job_id", JStr (pretty (id job))); ("params", JObj (params job));
   ("timeout_seconds", JInt 300)].

(** An endpoint returns a body, or raises ([None]) on a request without the
    entry it reads. *)
Definition comfyui_run_job (request : list (string * json)) : option json :=
  match dict_get "job_id" request with
  | None => None
  | Some job_id =>
      Some (JObj [("status", JStr "completed"); ("job_id", job_id);
                  ("execution_time_seconds", JNum (mkDec 50 (-1)));
                  ("artifacts",
                   JArr [JObj [("type", JStr "image");
                               ("url", JStr "https://placehold.co/1024x1024.png");
                               ("path", JStr "/tmp/dummy.png")]])])
  end.

Definition whisper_run_job (request : list (string * json)) : option json :=
  match dict_get "job_id" request with
  | None => None
  | Some job_id =>
      Some (JObj [("status", JStr "completed"); ("job_id", job_id);
                  ("execution_time_seconds", JNum (mkDec 30 (-1)));
                  ("artifacts",
                   JArr [JObj [("type", JStr "text");
                               ("metadata",
                                JObj [("transcription",
                                       JStr "Simulated transcription text.")]);
                               ("path", JNull); ("url", JNull)]])])
  end.

Section Format.

(** The text an f-string gives a value; how Python prints a value that is
    not a string is left open. *)
Variable fmt : json -> string.

Definition koboldcpp_run_job (request : list (string * json)) : option json :=
  match dict_get "job_id" request with
  | None => None
  | Some job_id =>
      match dict_get "params" request with
      | None => None
      | Some ps =>
          match json_get ps "prompt" (JStr "") with
          | None => None
          | Some prompt =>
              Some (JObj [("status", JStr "completed"); ("job_id", job_id);
                          ("execution_time_seconds", JNum (mkDec 20 (-1)));
                          ("artifacts",
                           JArr [JObj [("type", JStr "text");
                                       ("metadata",
                                        JObj [("content",
                                               JStr ("Simulated response to: "
                                                     +:+ fmt prompt))]);
                                       ("path", JNull); ("url", JNull)]])])
          end
      end
  end.

End Format.

(** What the scheduler's client sees of an endpoint: the body with status
    200, or the status 500 of an endpoint that raised. *)
Definition worker_exchange (answer : option json) : Exchange :=
  match answer with
  | Some body => Response 200 (Some body)
  | None => Response 500 None
  end.

End Workers.

(** ** frontend/telegram_bot/bot.py: the generate command *)

Module Bot.
Import Database Admission.

(** [" ".join(args)] *)
Fixpoint join_args (args : list string) : string :=
  match args with
  | [] => EmptyString
  | [a] => a
  | a :: rest => a +:+ " " +:+ join_args rest
  end.

(** The request posted to the scheduler for [/generate args], from the
    Telegram user id, chat id and message id of the update. *)
Definition generate_payload (args : list string) (user_id chat_id message_id : Z)
  : JobRequest :=
  mkJobRequest "telegram" (Some "tg-bot-1") "image"
               ("telegram" +:+ String (Ascii.ascii_of_nat 58) (pretty user_id))
               [("capability", JStr "image"); ("prompt", JStr (join_args args));
                ("resolution", JStr "1024x1024")]
               (Some [("chat_id", JInt chat_id); ("message_id", JInt message_id)]).

(** The reply for an answer of the scheduler: 402 is told apart, every other
    error status raises in [raise_for_status] and ends in the handler of
    exceptions.  10 is the code of the line feed. *)
Definition reply_of (res : HttpResult) : string :=
  match res with
  | Http200 r =>
      "Job Queued! ID: " +:+ pretty (resp_job_id r)
      +:+ String (Ascii.ascii_of_nat 10)
            ("Est time: " +:+ pretty (estimated_time_seconds r) +:+ "s")
  | HttpError code _ =>
      if code =? 402 then "Quota exceeded!" else "Failed to create job."
  end.

(** [generate], run against the scheduler's [create_job]: the store after the
    command and the text replied. *)
Definition generate (db : DB) (args : list string) (user_id chat_id message_id : Z)
           (now : Z) : DB * string :=
  match args with
  | [] => (db, "Please provide a prompt. Example: /generate a cat")
  | _ =>
      let '(db', res) :=
        create_job db (generate_payload args user_id chat_id message_id) now in
      (db', reply_of res)
  end.

End Bot.

(** * Properties *)

Import Database Sched Admission Scenario Shape Workers Bot.

(** ** Job selection *)

Section Selection.

Lemma oldest_In (l : list Job) (j : Job) : oldest l = Some j -> In j l.
Proof.
  revert j. induction l as [|a l IH]; intros j; simpl; [discriminate|].
  destruct (oldest l) as [k|] eqn:E.
  - destruct (created_at a <=? created_at k); intros [= <-]; auto.
  - intros [= <-]. auto.
Qed.

Lemma oldest_least (l : list Job) (j : Job) :
  oldest l = Some j -> forall k, In k l -> created_at j <= created_at k.
Proof.
  revert j. induction l as [|a l IH]; intros j; simpl; [discriminate|].
  destruct (oldest l) as [m|] eqn:E.
  - pose proof (IH m eq_refl) as Hm.
    destruct (Z.leb_spec (created_at a) (created_at m)) as [Hle|Hgt];
      intros [= <-] k [<-|Hk]; try lia.
    + specialize (Hm k Hk). lia.
    + exact (Hm k Hk).
  - intros [= <-] k [<-|Hk]; [lia|].
    destruct l; [destruct Hk|]. simpl in E.
    destruct (oldest l); [destruct (_ <=? _)|]; discriminate.
Qed.

Lemma oldest_None (l : list Job) : oldest l = None -> l = [].
Proof.
  destruct l as [|a l]; [reflexivity|]. simpl.
  destruct (oldest l); [destruct (_ <=? _)|]; discriminate.
Qed.

Lemma queued_with_priority_spec (p : Z) (j : Job) :
  queued_with_priority p j = true <-> status j = "QUEUED" /\ priority j = p.
Proof.
  unfold queued_with_priority.
  rewrite andb_true_iff, String.eqb_eq, Z.eqb_eq. reflexivity.
Qed.

Lemma get_next_queued_job_Some (db : DB) (p : Z) (caps : list string) (j : Job) :
  get_next_queued_job db p caps = Some j ->
  In j (jobs db) /\ status j = "QUEUED" /\ priority j = p /\
  forall k, In k (jobs db) -> status k = "QUEUED" -> priority k = p ->
            created_at j <= created_at k.
Proof.
  unfold get_next_queued_job. intros H.
  pose proof (oldest_In _ _ H) as Hin.
  apply filter_In in Hin as [Hin Hq].
  apply queued_with_priority_spec in Hq as [Hs Hp].
  repeat split; auto.
  intros k Hk Hks Hkp. apply (oldest_least _ _ H).
  apply filter_In. split; [assumption|].
  apply queued_with_priority_spec. auto.
Qed.

Lemma get_next_queued_job_None (db : DB) (p : Z) (caps : list string) :
  get_next_queued_job db p caps = None ->
  forall k, In k (jobs db) -> status k = "QUEUED" -> priority k <> p.
Proof.
  unfold get_next_queued_job. intros H k Hk Hs Hp.
  apply oldest_None in H.
  assert (Hin : In k (List.filter (queued_with_priority p) (jobs db))).
  { apply filter_In. split; [assumption|]. apply queued_with_priority_spec. auto. }
  rewrite H in Hin. destruct Hin.
Qed.

Lemma select_next_job_queued (db : DB) (w : WorkerProxy) (j : Job) :
  select_next_job db w = Some j -> In j (jobs db) /\ status j = "QUEUED".
Proof.
  unfold select_next_job. cbn [first_queued].
  destruct (get_next_queued_job db 3 _) eqn:E3;
    [intros [= ->]; apply get_next_queued_job_Some in E3; tauto|].
  destruct (get_next_queued_job db 2 _) eqn:E2;
    [intros [= ->]; apply get_next_queued_job_Some in E2; tauto|].
  destruct (get_next_queued_job db 1 _) eqn:E1;
    [intros [= ->]; apply get_next_queued_job_Some in E1; tauto|].
  destruct (get_next_queued_job db 0 _) eqn:E0;
    [intros [= ->]; apply get_next_queued_job_Some in E0; tauto|].
  discriminate.
Qed.

(** Once the dispatch of a job has written RUNNING, no selection returns a
    row of that job. *)
Lemma started_job_not_selected (db : DB) (r : Registry) (ref : nat) (job : Job)
      (c : Clock) (w : WorkerProxy) (j : Job) :
  select_next_job (fst (dispatch_job_begin db r ref job c)) w = Some j ->
  id j <> id job.
Proof.
  intros H. apply select_next_job_queued in H as [Hin Hs].
  unfold dispatch_job_begin, update_job in Hin. simpl in Hin.
  apply in_map_iff in Hin as (row & <- & _).
  unfold update_row in *. destruct (Z.eqb_spec (id row) (id job)) as [e|ne].
  - simpl in Hs. discriminate Hs.
  - exact ne.
Qed.

(** The capability list of the worker does not reach the query. *)
Lemma get_next_queued_job_any_capability (db : DB) (p : Z) (caps caps' : list string) :
  get_next_queued_job db p caps = get_next_queued_job db p caps'.
Proof. reflexivity. Qed.

Lemma select_next_job_any_worker (db : DB) (w w' : WorkerProxy) :
  select_next_job db w = select_next_job db w'.
Proof. reflexivity. Qed.

End Selection.

Section SelectionClaims.


(** C1 (the code departs from the claim).  The store holds one QUEUED job of
    capability image and the registry one idle worker whose capabilities
    are [text] only.  The dispatch loop finds that worker, job selection on
    its behalf returns the image job although "image" is not among the
    worker's capabilities, and the start of the dispatch moves the job to
    RUNNING on that worker. *)
Theorem select_next_job_foreign_capability :
  heap text_worker !! 0%nat = Some txt /\
  find_idle_worker text_worker 5 = Some 0%nat /\
  select_next_job (db_with [image_job]) txt = Some image_job /\
  ~ In (capability image_job) (capabilities txt) /\
  created_tasks (loop_pass (mkWorld (db_with [image_job]) text_worker [] []) 5)
    = [(0%nat, image_job)] /\
  let db' := fst (dispatch_job_begin (db_with [image_job]) text_worker 0 image_job clock) in
  status <$> job_row db' 1 = Some "RUNNING" /\
  worker_id <$> job_row db' 1 = Some (Some "w-txt").
Proof.
  repeat split; try reflexivity.
  simpl. intros [H|[]]. discriminate H.
Qed.

(** C7 (the code departs from the claim).  The store holds two QUEUED jobs,
    an image job of priority 3 and a text job of priority 0, and the registry
    one idle worker whose capabilities are [text] only.  The text job is the
    only QUEUED job the worker can handle, hence the eligible job of highest
    priority; job selection for the worker returns the image job, which is
    not eligible, and the dispatch loop creates the task of the image job on
    that worker. *)
Theorem select_next_job_not_eligible :
  let db := db_with [job_img3; job_txt0] in
  find_idle_worker text_worker 5 = Some 0%nat /\
  heap text_worker !! 0%nat = Some txt /\
  In job_txt0 (jobs db) /\ status job_txt0 = "QUEUED" /\
  In (capability job_txt0) (capabilities txt) /\
  (forall j : Job,
      In j (jobs db) -> status j = "QUEUED" -> In (capability j) (capabilities txt) ->
      j = job_txt0) /\
  select_next_job db txt = Some job_img3 /\
  ~ In (capability job_img3) (capabilities txt) /\
  created_tasks (loop_pass (mkWorld db text_worker [] []) 5) = [(0%nat, job_img3)].
Proof.
  cbv zeta. split; [reflexivity|]. split; [reflexivity|].
  split; [right; left; reflexivity|]. split; [reflexivity|].
  split; [left; reflexivity|]. split.
  { intros j [<-|[<-|[]]] _ Hc; [|reflexivity].
    destruct Hc as [H|[]]. discriminate H. }
  split; [reflexivity|]. split; [|reflexivity].
  intros [H|[]]. discriminate H.
Qed.

(** Whenever job selection returns a job, that job is a QUEUED row of one of
    the scanned priority tiers 3, 2, 1, 0, whatever its capability; every
    QUEUED row of those tiers has a lower priority, or the same priority and
    a [created_at] that is not older.  With jobs A (priority 0, t = 1),
    B (2, t = 2) and C (2, t = 3) queued, one worker is given B, then C,
    then A. *)
Theorem select_next_job_priority_fifo :
  (forall (db : DB) (worker : WorkerProxy) (job : Job),
      select_next_job db worker = Some job ->
      In job (jobs db) /\ status job = "QUEUED" /\ 0 <= priority job <= 3 /\
      forall other : Job,
        In other (jobs db) -> status other = "QUEUED" -> 0 <= priority other <= 3 ->
        priority other < priority job \/
        (priority other = priority job /\ created_at job <= created_at other)) /\
  dispatch_order 4 (db_with [job_A; job_B; job_C]) img_worker 0
                 (Response 200 (Some body_completed)) clock
    = [id job_B; id job_C; id job_A].
Proof.
  split; [|reflexivity].
  intros db worker job. unfold select_next_job. cbn [first_queued].
  destruct (get_next_queued_job db 3 _) as [j3|] eqn:E3.
  { intros [= ->]. apply get_next_queued_job_Some in E3 as (Hin & Hs & Hp & Hfifo).
    repeat split; auto; try lia.
    intros o Ho Hos Hor. destruct (Z.eq_dec (priority o) 3) as [e|]; [|lia].
    right. split; [lia|]. apply Hfifo; auto. }
  pose proof (get_next_queued_job_None _ _ _ E3) as N3.
  destruct (get_next_queued_job db 2 _) as [j2|] eqn:E2.
  { intros [= ->]. apply get_next_queued_job_Some in E2 as (Hin & Hs & Hp & Hfifo).
    repeat split; auto; try lia.
    intros o Ho Hos Hor. specialize (N3 o Ho Hos).
    destruct (Z.eq_dec (priority o) 2) as [e|]; [|lia].
    right. split; [lia|]. apply Hfifo; auto. }
  pose proof (get_next_queued_job_None _ _ _ E2) as N2.
  destruct (get_next_queued_job db 1 _) as [j1|] eqn:E1.
  { intros [= ->]. apply get_next_queued_job_Some in E1 as (Hin & Hs & Hp & Hfifo).
    repeat split; auto; try lia.
    intros o Ho Hos Hor. specialize (N3 o Ho Hos). specialize (N2 o Ho Hos).
    destruct (Z.eq_dec (priority o) 1) as [e|]; [|lia].
    right. split; [lia|]. apply Hfifo; auto. }
  pose proof (get_next_queued_job_None _ _ _ E1) as N1.
  destruct (get_next_queued_job db 0 _) as [j0|] eqn:E0; [|discriminate].
  intros [= ->]. apply get_next_queued_job_Some in E0 as (Hin & Hs & Hp & Hfifo).
  repeat split; auto; try lia.
  intros o Ho Hos Hor. specialize (N3 o Ho Hos). specialize (N2 o Ho Hos).
  specialize (N1 o Ho Hos).
  right. split; [lia|]. apply Hfifo; auto. lia.
Qed.

Lemma select_next_job_priority_fifo_witness :
  select_next_job (db_with [job_A; job_B; job_C]) img = Some job_B /\
  (priority job_C < priority job_B \/
   (priority job_C = priority job_B /\ created_at job_B <= created_at job_C)).
Proof.
  split; [reflexivity|].
  refine (proj2 (proj2 (proj2 (proj1 select_next_job_priority_fifo
            (db_with [job_A; job_B; job_C]) img job_B eq_refl))) job_C _ _ _).
  - simpl. auto.
  - reflexivity.
  - simpl. lia.
Defined.

End SelectionClaims.

(** ** The dispatch loop and the worker answer *)

Section Dispatch.

(** A pass of the loop reads the store and the registry and changes neither:
    it only records the task it creates. *)
Lemma loop_pass_reads_only (w : World) (now : Z) :
  store (loop_pass w now) = store w /\ registry (loop_pass w now) = registry w /\
  running_tasks (loop_pass w now) = running_tasks w.
Proof.
  unfold loop_pass.
  destruct (find_idle_worker _ _); [|auto].
  destruct (heap _ !! _); [|auto].
  destruct (select_next_job _ _); auto.
Qed.

(** The first idle worker stays the first as the clock advances, for as long
    as it is healthy: a worker that was busy or unhealthy before it in the
    dict is still so later. *)
Lemma first_idle_later (now now' : Z) (hp : list WorkerProxy) (refs : list (string * nat))
      (ref : nat) (worker : WorkerProxy) :
  now <= now' ->
  first_idle now hp refs = Some ref ->
  hp !! ref = Some worker -> is_healthy now' worker = true ->
  first_idle now' hp refs = Some ref.
Proof.
  intros Hle Hfirst Hw Hh. induction refs as [|[k r0] rest IH]; [discriminate|].
  cbn [first_idle] in *. destruct (hp !! r0) as [w0|] eqn:E0; [|auto].
  destruct (String.eqb (wstatus w0) "idle") eqn:Ei; cbn [andb] in *; [|auto].
  destruct (is_healthy now w0) eqn:Eh.
  - injection Hfirst as <-. rewrite Hw in E0. injection E0 as <-. rewrite Hh. reflexivity.
  - assert (is_healthy now' w0 = false) as ->; [|auto].
    unfold is_healthy in *. apply Z.ltb_ge in Eh. apply Z.ltb_ge. lia.
Qed.

(** The loop has no record of the tasks it created.  When a pass creates a
    task and no task starts before the next pass, made at a later reading of
    the clock at which the worker is still healthy, the next pass finds the
    same worker, selects the same job and creates the task once more. *)
Lemma loop_pass_repeats (w : World) (now now' : Z) (ref : nat) (job : Job)
      (worker : WorkerProxy) :
  created_tasks (loop_pass w now) = (created_tasks w ++ [(ref, job)])%list ->
  heap (registry w) !! ref = Some worker ->
  now <= now' -> is_healthy now' worker = true ->
  created_tasks (loop_pass (loop_pass w now) now')
  = (created_tasks w ++ [(ref, job); (ref, job)])%list.
Proof.
  intros Hfirst Hw Hle Hh.
  assert (Hlen : forall l : list (nat * Job), l = (l ++ [(ref, job)])%list -> False).
  { intros l H. apply (f_equal length) in H. rewrite length_app in H. simpl in H. lia. }
  destruct (loop_pass_reads_only w now) as (Hs & Hr & _).
  unfold loop_pass at 1. rewrite Hs, Hr. rewrite Hfirst.
  unfold loop_pass in Hfirst.
  destruct (find_idle_worker (registry w) now) as [ref0|] eqn:Ef;
    [|destruct (Hlen _ Hfirst)].
  destruct (heap (registry w) !! ref0) as [worker0|] eqn:E0; [|destruct (Hlen _ Hfirst)].
  destruct (select_next_job (store w) worker0) as [job0|] eqn:Es;
    [|destruct (Hlen _ Hfirst)].
  cbn [created_tasks] in Hfirst. apply app_inv_head in Hfirst. injection Hfirst as -> ->.
  rewrite Hw in E0. injection E0 as <-.
  unfold find_idle_worker in *.
  rewrite (first_idle_later now now' _ _ ref worker Hle Ef Hw Hh), Hw, Es.
  cbn [created_tasks]. rewrite <- app_assoc. reflexivity.
Qed.

Lemma loop_pass_repeats_witness :
  created_tasks (loop_pass (loop_pass world0 5) 6) = [(0%nat, image_job); (0%nat, image_job)].
Proof.
  exact (loop_pass_repeats world0 5 6 0%nat image_job img
           eq_refl eq_refl ltac:(lia) eq_refl).
Defined.

(** The handler of a returned body reads the entries [artifacts] and
    [execution_time_seconds] only; [status] and [error] play no part. *)
Lemma handle_job_completion_reads (db : DB) (job : Job) (kv kv' : list (string * json))
      (now day : Z) :
  dict_get "artifacts" kv = dict_get "artifacts" kv' ->
  dict_get "execution_time_seconds" kv = dict_get "execution_time_seconds" kv' ->
  handle_job_completion db job (JObj kv) now day
  = handle_job_completion db job (JObj kv') now day.
Proof.
  intros Ha He. unfold handle_job_completion, json_get. rewrite Ha, He. reflexivity.
Qed.

(** C2 (the code departs from the claim).  One QUEUED job, one idle worker.
    Two passes of the dispatch loop with no task started in between (a
    created task starts only when the loop suspends, and its UPDATE to
    RUNNING is a later store call) select the same job twice and create two
    dispatch tasks for it.  When both tasks have run, the single job row has
    been billed twice and has two artifacts. *)
Theorem dispatch_loop_selects_job_twice :
  created_tasks world_two_passes = [(0%nat, image_job); (0%nat, image_job)] /\
  length (jobs (store world_both_done)) = 1%nat /\
  status <$> job_row (store world_both_done) 1 = Some "COMPLETED" /\
  usage_daily (store world_both_done) !! (1, 0) = Some (mkUsage dec_2_0 2) /\
  length (artifacts (store world_both_done)) = 2%nat.
Proof. vm_compute. repeat split; reflexivity. Qed.

(** C4 (the code departs from the claim).  The worker answers 200 with a
    well-formed body whose status is "failed" and which carries an error.  The
    dispatch records the job as COMPLETED with no error, and adds the job's
    cost and one completed job to the user's usage for the day. *)
Theorem failed_status_body_completes_job :
  let db' := fst (dispatch_job (db_with [image_job]) img_worker 0 image_job
                               (Response 200 (Some body_failed)) clock) in
  json_get body_failed "status" JNull = Some (JStr "failed") /\
  status <$> job_row db' 1 = Some "COMPLETED" /\
  error <$> job_row db' 1 = Some None /\
  usage_daily (db_with [image_job]) !! (1, 0) = None /\
  usage_daily db' !! (1, 0) = Some (mkUsage (cost_tokens image_job) 1).
Proof. vm_compute. repeat split; reflexivity. Qed.

End Dispatch.

(** ** update_job and the handlers built on it *)

Section UpdateJob.

Lemma set_column_frame (j : Job) (k : Kwarg) :
  id (set_column j k) = id j /\ job_user_id (set_column j k) = job_user_id j /\
  capability (set_column j k) = capability j /\ priority (set_column j k) = priority j /\
  params (set_column j k) = params j /\ cost_tokens (set_column j k) = cost_tokens j /\
  created_at (set_column j k) = created_at j.
Proof. destruct k; simpl; auto 10. Qed.

(** No keyword argument reaches the columns written at creation. *)
Lemma fold_set_column_frame (kwargs : list Kwarg) (j : Job) :
  let j' := fold_left set_column kwargs j in
  id j' = id j /\ job_user_id j' = job_user_id j /\ capability j' = capability j /\
  priority j' = priority j /\ params j' = params j /\ cost_tokens j' = cost_tokens j /\
  created_at j' = created_at j.
Proof.
  revert j. induction kwargs as [|k rest IH]; intros j; simpl; [auto 10|].
  specialize (IH (set_column j k)). simpl in IH.
  pose proof (set_column_frame j k) as F.
  intuition congruence.
Qed.

Lemma set_column_creation (j : Job) (k : Kwarg) : same_creation j (set_column j k).
Proof. destruct k; repeat split. Qed.

Lemma fold_set_column_creation (kwargs : list Kwarg) (j : Job) :
  same_creation j (fold_left set_column kwargs j).
Proof.
  revert j. induction kwargs as [|k rest IH]; intros j; cbn [fold_left]; [repeat split|].
  pose proof (IH (set_column j k)) as H. pose proof (set_column_creation j k) as F.
  unfold same_creation in *. intuition congruence.
Qed.

Lemma set_column_holds (j : Job) (k : Kwarg) : holds (set_column j k) k.
Proof. destruct k; reflexivity. Qed.

(** A keyword argument leaves the columns of the other names as they were. *)
Lemma set_column_same (j : Job) (a k : Kwarg) :
  column a <> column k -> same_column k j (set_column j a).
Proof. destruct k, a; intros H; try reflexivity; exfalso; apply H; reflexivity. Qed.

Lemma same_column_trans (k : Kwarg) (a b c : Job) :
  same_column k a b -> same_column k b c -> same_column k a c.
Proof. destruct k; simpl; congruence. Qed.

Lemma holds_same_column (k : Kwarg) (a b : Job) :
  holds a k -> same_column k a b -> holds b k.
Proof. destruct k; simpl; congruence. Qed.

Lemma fold_set_column_same (kwargs : list Kwarg) (j : Job) (k : Kwarg) :
  ~ In (column k) (List.map column kwargs) ->
  same_column k j (fold_left set_column kwargs j).
Proof.
  revert j. induction kwargs as [|a rest IH]; intros j Hk; cbn [fold_left].
  - destruct k; reflexivity.
  - cbn [List.map] in Hk. apply (same_column_trans k j (set_column j a)).
    + apply set_column_same. intros e. apply Hk. left. exact e.
    + apply IH. intros Hin. apply Hk. right. exact Hin.
Qed.

Lemma distinct_cons (c : string) (l : list string) :
  distinct (c :: l) = true -> ~ In c l /\ distinct l = true.
Proof.
  cbn [distinct]. intros H. apply andb_true_iff in H as [H1 H2]. split; [|exact H2].
  intros Hin. apply negb_true_iff in H1.
  assert (existsb (String.eqb c) l = true).
  { apply existsb_exists. exists c. split; [exact Hin|apply String.eqb_refl]. }
  congruence.
Qed.

(** With every column named once, each keyword argument ends up in the row. *)
Lemma fold_set_column_holds (kwargs : list Kwarg) (j : Job) (k : Kwarg) :
  distinct (List.map column kwargs) = true -> In k kwargs ->
  holds (fold_left set_column kwargs j) k.
Proof.
  revert j. induction kwargs as [|a rest IH]; intros j Hd Hin; [destruct Hin|].
  cbn [List.map] in Hd. apply distinct_cons in Hd as [Hfresh Hd].
  cbn [fold_left]. destruct Hin as [->|Hin].
  - apply (holds_same_column k (set_column j k)); [apply set_column_holds|].
    apply fold_set_column_same. exact Hfresh.
  - apply IH; assumption.
Qed.

(** The calls of failure handling, of the start of a dispatch and of admission
    are accepted whatever their arguments; only the call of completion
    handling passes a value of the worker's answer. *)
Lemma update_job_callers_accepted (now : Z) (code msg w : string) :
  update_job_refused [kw_status "FAILED"; kw_ended_at now;
                      kw_error (JObj [("code", JStr code); ("message", JStr msg)])] = false /\
  update_job_refused [kw_status "RUNNING"; kw_started_at now; kw_worker_id w] = false /\
  update_job_refused [kw_status "QUEUED"; kw_queued_at now] = false.
Proof. repeat split. Qed.

Lemma update_job_refused_false (kwargs : list Kwarg) :
  update_job_refused kwargs = false ->
  kwargs <> [] /\ distinct (List.map column kwargs) = true /\
  forallb accepted_value kwargs = true.
Proof.
  destruct kwargs as [|k rest]; [discriminate|].
  unfold update_job_refused. intros H. apply negb_false_iff, andb_true_iff in H.
  split; [discriminate|exact H].
Qed.

Lemma update_job_lookup (db : DB) (job_id : Z) (kwargs : list Kwarg) (n : nat) :
  jobs (update_job db job_id kwargs) !! n = update_row job_id kwargs <$> jobs db !! n.
Proof. unfold update_job. simpl. apply list_lookup_fmap. Qed.

Lemma update_job_keeps_rest (db : DB) (job_id : Z) (kwargs : list Kwarg) :
  usage_daily (update_job db job_id kwargs) = usage_daily db /\
  artifacts (update_job db job_id kwargs) = artifacts db /\
  users (update_job db job_id kwargs) = users db /\
  plans (update_job db job_id kwargs) = plans db.
Proof. repeat split. Qed.

(** What failure handling leaves in a row of the job, whatever the row held. *)
Lemma handle_job_failure_row (db : DB) (job : Job) (code msg : string) (now : Z)
      (n : nat) (row : Job) :
  jobs db !! n = Some row -> id row = id job ->
  exists row', jobs (handle_job_failure db job code msg now) !! n = Some row' /\
    status row' = "FAILED" /\ ended_at row' = Some now /\
    error row' = Some (JObj [("code", JStr code); ("message", JStr msg)]).
Proof.
  intros Hn Hid. unfold handle_job_failure. rewrite update_job_lookup, Hn. simpl.
  unfold update_row. rewrite Hid, Z.eqb_refl. simpl. eauto.
Qed.

End UpdateJob.

Section UpdateJobClaims.

(** C3, as stated, fails: the only job of the store is COMPLETED, and failure
    handling for it rewrites the row, which then reads FAILED. *)
Lemma terminal_job_overwritten :
  status <$> job_row (db_with [completed_job]) 1 = Some "COMPLETED" /\
  let db' := handle_job_failure (db_with [completed_job]) completed_job
                                "DISPATCH_ERROR" "boom" 30 in
  status <$> job_row db' 1 = Some "FAILED" /\
  ended_at <$> job_row db' 1 = Some (Some 30) /\
  jobs db' <> jobs (db_with [completed_job]).
Proof. vm_compute. repeat split; try reflexivity. discriminate. Qed.

(** C3, amended.  A job update is an unconditional write keyed by the job id:
    there is no expected status and no result.  For keyword arguments the
    statement is accepted with (at least one, each naming its column once,
    among status, queued_at, started_at, ended_at, worker_id,
    execution_time_seconds, metadata and error), every row with another id is
    left as it was; every row with the given id, whatever status it had,
    holds each assigned value in its column and keeps the value of every
    column that is not named, the columns written at creation among them.  In
    particular failure handling sets every row of the job to FAILED with the
    new [ended_at] and error, also when the row was in a terminal status, and
    leaves its other columns as they were. *)
Theorem update_job_unconditional :
  (forall (db : DB) (job_id : Z) (kwargs : list Kwarg) (n : nat) (row : Job),
      update_job_refused kwargs = false ->
      jobs db !! n = Some row ->
      exists row', jobs (update_job db job_id kwargs) !! n = Some row' /\
        (id row <> job_id -> row' = row) /\
        (id row = job_id ->
         (forall k, In k kwargs -> holds row' k) /\
         (forall k, ~ In (column k) (List.map column kwargs) -> same_column k row row') /\
         same_creation row row')) /\
  (forall (db : DB) (job : Job) (code msg : string) (now : Z) (n : nat) (row : Job),
      jobs db !! n = Some row ->
      id row = id job ->
      exists row', jobs (handle_job_failure db job code msg now) !! n = Some row' /\
        status row' = "FAILED" /\ ended_at row' = Some now /\
        error row' = Some (JObj [("code", JStr code); ("message", JStr msg)]) /\
        queued_at row' = queued_at row /\ started_at row' = started_at row /\
        worker_id row' = worker_id row /\
        execution_time_seconds row' = execution_time_seconds row /\
        metadata row' = metadata row /\ same_creation row row').
Proof.
  assert (General :
    forall (db : DB) (job_id : Z) (kwargs : list Kwarg) (n : nat) (row : Job),
      update_job_refused kwargs = false ->
      jobs db !! n = Some row ->
      exists row', jobs (update_job db job_id kwargs) !! n = Some row' /\
        (id row <> job_id -> row' = row) /\
        (id row = job_id ->
         (forall k, In k kwargs -> holds row' k) /\
         (forall k, ~ In (column k) (List.map column kwargs) -> same_column k row row') /\
         same_creation row row')).
  { intros db job_id kwargs n row Hacc Hn.
    apply update_job_refused_false in Hacc as (_ & Hd & _).
    exists (update_row job_id kwargs row).
    rewrite update_job_lookup, Hn. split; [reflexivity|].
    unfold update_row. destruct (Z.eqb_spec (id row) job_id) as [e|ne].
    - split; [intros; contradiction|]. intros _. split; [|split].
      + intros k Hk. apply fold_set_column_holds; assumption.
      + intros k Hk. apply fold_set_column_same. exact Hk.
      + apply fold_set_column_creation.
    - split; [reflexivity|]. intros; contradiction. }
  split; [exact General|].
  intros db job code msg now n row Hn Hid.
  destruct (General db (id job)
              [kw_status "FAILED"; kw_ended_at now;
               kw_error (JObj [("code", JStr code); ("message", JStr msg)])]
              n row eq_refl Hn) as (row' & Hrow & _ & H).
  destruct (H Hid) as (Hset & Hkeep & Hcre).
  exists row'. split; [exact Hrow|].
  split; [apply (Hset (kw_status "FAILED")); cbn; auto|].
  split; [apply (Hset (kw_ended_at now)); cbn; auto|].
  split; [apply (Hset (kw_error (JObj [("code", JStr code); ("message", JStr msg)])));
          cbn; auto|].
  assert (Hfree : forall k, column k <> "status" -> column k <> "ended_at" ->
                            column k <> "error" -> same_column k row row').
  { intros k H1 H2 H3. apply Hkeep. cbn. intros [e|[e|[e|[]]]]; congruence. }
  split; [apply (Hfree (kw_queued_at 0)); discriminate|].
  split; [apply (Hfree (kw_started_at 0)); discriminate|].
  split; [apply (Hfree (kw_worker_id "")); discriminate|].
  split; [apply (Hfree (kw_execution_time_seconds JNull)); discriminate|].
  split; [apply (Hfree (kw_metadata JNull)); discriminate|].
  exact Hcre.
Qed.

Lemma update_job_unconditional_witness :
  (exists row',
      jobs (update_job (db_with [completed_job]) 1 [kw_status "QUEUED"; kw_queued_at 40])
        !! 0%nat = Some row' /\
      status row' = "QUEUED" /\ queued_at row' = Some 40 /\
      ended_at row' = ended_at completed_job) /\
  (exists row',
      jobs (handle_job_failure (db_with [completed_job]) completed_job
                               "DISPATCH_ERROR" "boom" 30) !! 0%nat = Some row' /\
      status row' = "FAILED" /\ ended_at row' = Some 30 /\
      started_at row' = started_at completed_job).
Proof.
  split.
  - destruct (proj1 update_job_unconditional (db_with [completed_job]) 1
                [kw_status "QUEUED"; kw_queued_at 40] 0%nat completed_job eq_refl eq_refl)
      as (row' & Hrow & _ & H).
    destruct (H eq_refl) as (Hset & Hkeep & _).
    exists row'. split; [exact Hrow|].
    split; [apply (Hset (kw_status "QUEUED")); cbn; auto|].
    split; [apply (Hset (kw_queued_at 40)); cbn; auto|].
    apply (Hkeep (kw_ended_at 0)). cbn. intros [e|[e|[]]]; discriminate e.
  - destruct (proj2 update_job_unconditional (db_with [completed_job]) completed_job
                "DISPATCH_ERROR" "boom" 30 0%nat completed_job eq_refl eq_refl)
      as (row' & Hrow & H1 & H2 & _ & _ & H5 & _).
    exists row'. auto.
Defined.

End UpdateJobClaims.

(** ** The dispatch of a job *)

Section DispatchJob.

Lemma run_job_failed (x : Exchange) :
  rpc_failed x = true -> exists e, run_job x = inr e.
Proof.
  destruct x as [m|m|code body]; simpl; eauto.
  destruct (is_success code); simpl; [|eauto].
  destruct body; [discriminate|eauto].
Qed.

Lemma assign_status_lookup (r : Registry) (ref : nat) (s : string) (w : WorkerProxy) :
  heap r !! ref = Some w ->
  heap (assign_status r ref s) !! ref = Some (set_wstatus s w).
Proof.
  intros H. unfold assign_status. simpl.
  rewrite list_lookup_alter, H. case_decide; [reflexivity|contradiction].
Qed.

(** The second half of a dispatch, from any store and registry the worker
    call may end in (other tasks and heartbeats have run meanwhile). *)
Lemma dispatch_job_end_failed (db : DB) (r : Registry) (ref : nat) (job : Job)
      (x : Exchange) (c : Clock) :
  rpc_failed x = true ->
  usage_daily (fst (dispatch_job_end db r ref job x c)) = usage_daily db /\
  forall (n : nat) (row : Job),
    jobs db !! n = Some row -> id row = id job ->
    exists row', jobs (fst (dispatch_job_end db r ref job x c)) !! n = Some row' /\
      status row' = "FAILED" /\ ended_at row' = Some (t_failed c) /\
      error_code row' = Some (JStr "DISPATCH_ERROR").
Proof.
  intros Hx. unfold dispatch_job_end. cbn [fst].
  destruct (run_job_failed x Hx) as [e He]. rewrite He.
  split; [reflexivity|].
  intros n row Hn Hid.
  destruct (handle_job_failure_row db job "DISPATCH_ERROR" e (t_failed c) n row Hn Hid)
    as (row' & Hl & Hs & He' & Herr).
  exists row'. repeat split; auto.
  unfold error_code. rewrite Herr. reflexivity.
Qed.

Lemma dispatch_job_begin_row (db : DB) (r : Registry) (ref : nat) (job : Job) (c : Clock)
      (n : nat) (row : Job) :
  jobs db !! n = Some row -> id row = id job ->
  exists row1, jobs (fst (dispatch_job_begin db r ref job c)) !! n = Some row1 /\
    id row1 = id job /\ status row1 = "RUNNING".
Proof.
  intros Hn Hid. unfold dispatch_job_begin. cbn [fst].
  rewrite update_job_lookup, Hn. simpl.
  unfold update_row. rewrite Hid, Z.eqb_refl. simpl. eauto.
Qed.

(** C9.  For a dispatch handed a live worker object: when the dispatch ends,
    whatever the worker call did (a body returned and handled, a handler that
    raised, a failed call), the worker object is idle.  When the worker call
    ends in a transport error, a timeout, a status that is not 2xx or a body
    that does not parse, the usage counters are the ones from before the
    dispatch and every row of the job is FAILED, with [ended_at] set and the
    error code DISPATCH_ERROR.  Both hold for the dispatch run in one piece,
    and for its second half run from whatever store and registry the worker
    call ends in. *)
Theorem dispatch_error_fails_job_frees_worker :
  forall (db : DB) (r : Registry) (ref : nat) (job : Job) (x : Exchange) (c : Clock)
         (worker : WorkerProxy),
    heap r !! ref = Some worker ->
    wstatus <$> heap (snd (dispatch_job db r ref job x c)) !! ref = Some "idle" /\
    wstatus <$> heap (snd (dispatch_job_end db r ref job x c)) !! ref = Some "idle" /\
    (rpc_failed x = true ->
     usage_daily (fst (dispatch_job db r ref job x c)) = usage_daily db /\
     usage_daily (fst (dispatch_job_end db r ref job x c)) = usage_daily db /\
     forall (n : nat) (row : Job),
       jobs db !! n = Some row -> id row = id job ->
       (exists row', jobs (fst (dispatch_job db r ref job x c)) !! n = Some row' /\
          status row' = "FAILED" /\ ended_at row' = Some (t_failed c) /\
          error_code row' = Some (JStr "DISPATCH_ERROR")) /\
       (exists row', jobs (fst (dispatch_job_end db r ref job x c)) !! n = Some row' /\
          status row' = "FAILED" /\ ended_at row' = Some (t_failed c) /\
          error_code row' = Some (JStr "DISPATCH_ERROR"))).
Proof.
  intros db r ref job x c worker Hw.
  assert (Hcomp : dispatch_job db r ref job x c
                  = dispatch_job_end (fst (dispatch_job_begin db r ref job c))
                                     (assign_status r ref "busy") ref job x c)
    by reflexivity.
  split; [|split].
  - rewrite Hcomp. unfold dispatch_job_end. cbn [snd].
    erewrite assign_status_lookup; [reflexivity|].
    eapply assign_status_lookup; eassumption.
  - unfold dispatch_job_end. cbn [snd].
    erewrite assign_status_lookup; [reflexivity|eassumption].
  - intros Hx.
    destruct (dispatch_job_end_failed db r ref job x c Hx) as [Hu Hrows].
    destruct (dispatch_job_end_failed (fst (dispatch_job_begin db r ref job c))
                (assign_status r ref "busy") ref job x c Hx) as [Hu1 Hrows1].
    split; [rewrite Hcomp, Hu1; reflexivity|]. split; [exact Hu|].
    intros n row Hn Hid. split; [|exact (Hrows n row Hn Hid)].
    destruct (dispatch_job_begin_row db r ref job c n row Hn Hid) as (row1 & Hn1 & Hid1 & _).
    rewrite Hcomp. exact (Hrows1 n row1 Hn1 Hid1).
Qed.

Lemma dispatch_error_fails_job_frees_worker_witness :
  wstatus <$> heap (snd (dispatch_job (db_with [image_job]) img_worker 0 image_job
                                      (Response 500 None) clock)) !! 0%nat = Some "idle" /\
  exists row', jobs (fst (dispatch_job (db_with [image_job]) img_worker 0 image_job
                                       (Response 500 None) clock)) !! 0%nat = Some row' /\
    status row' = "FAILED" /\ ended_at row' = Some (t_failed clock) /\
    error_code row' = Some (JStr "DISPATCH_ERROR").
Proof.
  pose proof (dispatch_error_fails_job_frees_worker
                (db_with [image_job]) img_worker 0 image_job (Response 500 None) clock
                (new_worker "w-img" "http://worker:9000" ["image"] 0) eq_refl)
    as (Hidle & _ & Hfail).
  split; [exact Hidle|].
  exact (proj1 (proj2 (proj2 (Hfail eq_refl)) 0%nat image_job eq_refl eq_refl)).
Defined.

End DispatchJob.

(** ** The worker registry *)

Section RegistryFacts.

Lemma dict_get_set_same {A} (k : string) (v : A) (d : list (string * A)) :
  dict_get k (dict_set k v d) = Some v.
Proof.
  induction d as [|[k' v'] rest IH]; simpl.
  - rewrite String.eqb_refl. reflexivity.
  - destruct (String.eqb k k') eqn:E; simpl; rewrite E; auto.
Qed.

Lemma dict_get_set_other {A} (k k' : string) (v : A) (d : list (string * A)) :
  k <> k' -> dict_get k' (dict_set k v d) = dict_get k' d.
Proof.
  intros Hne. induction d as [|[k0 v0] rest IH]; simpl.
  - destruct (String.eqb_spec k' k); [congruence|reflexivity].
  - destruct (String.eqb_spec k k0) as [->|]; simpl.
    + destruct (String.eqb_spec k' k0); [congruence|reflexivity].
    + destruct (String.eqb k' k0); auto.
Qed.

(** A registration allocates a new object; the objects of dispatches in
    flight stay what they were. *)
Lemma register_worker_keeps_objects (r : Registry) (worker_id url : string)
      (caps : list string) (now : Z) (ref : nat) (w : WorkerProxy) :
  heap r !! ref = Some w ->
  heap (register_worker r worker_id url caps now) !! ref = Some w.
Proof. intros H. simpl. apply lookup_app_l_Some. exact H. Qed.

(** Registration replaces the record: whether or not the registry held a
    record for the worker id, the record held after the call is a fresh one,
    with the url and capabilities of the call, the last heartbeat at now, no
    loaded model, and the status idle. *)
Lemma register_worker_replaces_record (r : Registry) (worker_id url : string)
      (caps : list string) (now : Z) :
  worker_of (register_worker r worker_id url caps now) worker_id
  = Some (mkWorker worker_id url caps "idle" [] now).
Proof.
  unfold worker_of, register_worker. simpl.
  rewrite dict_get_set_same. apply list_lookup_middle. reflexivity.
Qed.

(** C8 (the code departs from the claim).  Worker "w-img" is busy with job B
    when its heartbeat arrives.  After the heartbeat the record held for
    "w-img" has the new heartbeat time and is idle, while the object of the
    dispatch in flight is still busy; the next pass of the loop finds the
    worker idle and gives it job A: two jobs are RUNNING on "w-img". *)
Theorem heartbeat_resets_busy_worker :
  wstatus <$> worker_of (registry world_busy) "w-img" = Some "busy" /\
  wstatus <$> worker_of (registry world_after_heartbeat) "w-img" = Some "idle" /\
  last_heartbeat <$> worker_of (registry world_after_heartbeat) "w-img" = Some 30000000 /\
  wstatus <$> heap (registry world_after_heartbeat) !! 0%nat = Some "busy" /\
  running_tasks world_double_booked = [(0%nat, job_B); (1%nat, job_A)] /\
  wid <$> heap (registry world_double_booked) !! 0%nat = Some "w-img" /\
  wid <$> heap (registry world_double_booked) !! 1%nat = Some "w-img" /\
  List.map (fun j => (id j, status j, worker_id j)) (jobs (store world_double_booked))
  = [(1, "RUNNING", Some "w-img"); (2, "RUNNING", Some "w-img")].
Proof. vm_compute. repeat split; reflexivity. Qed.

End RegistryFacts.

(** ** Artifacts *)

Section ArtifactFacts.

Lemma save_artifacts_png (items : list json) :
  forall (db : DB) (job : Job) (ids : list Z),
  exists added : list Artifact,
    artifacts (fst (save_artifacts db job items ids)) = (artifacts db ++ added)%list /\
    Forall (fun a => format a = "png") added.
Proof.
  induction items as [|a rest IH]; intros db job ids; simpl.
  - exists []. rewrite app_nil_r. auto.
  - destruct (json_get a "type" _) as [ty|]; [|exists []; rewrite app_nil_r; auto].
    destruct (json_get a "path" _) as [pa|]; [|exists []; rewrite app_nil_r; auto].
    destruct (json_get a "url" _) as [ur|]; [|exists []; rewrite app_nil_r; auto].
    destruct (json_get a "metadata" _) as [md|]; [|exists []; rewrite app_nil_r; auto].
    cbv zeta. destruct (create_artifact_refused _); [exists []; rewrite app_nil_r; auto|].
    unfold create_artifact.
    match goal with
    | |- context [save_artifacts ?d job rest ?i] => destruct (IH d job i) as (added & He & Hf)
    end.
    eexists (_ :: added). rewrite He. simpl. rewrite <- app_assoc. simpl.
    split; [reflexivity|]. constructor; [reflexivity|assumption].
Qed.

(** C10.  The row a call of [create_artifact] appends carries the job id,
    type, path, url and metadata of the call and the format "png", whatever
    the type and the metadata are.  Hence every artifact row recorded while a
    worker answer is handled has the format "png", whatever the answer
    holds. *)
Theorem create_artifact_format_png :
  (forall (db : DB) (d : ArtifactData),
      exists row : Artifact,
        artifacts (fst (create_artifact db d)) = (artifacts db ++ [row])%list /\
        artifact_id row = snd (create_artifact db d) /\
        artifact_type row = ad_type d /\ artifact_metadata row = ad_metadata d /\
        format row = "png") /\
  (forall (db : DB) (job : Job) (response : json) (now day : Z),
      exists added : list Artifact,
        artifacts (fst (handle_job_completion db job response now day))
        = (artifacts db ++ added)%list /\
        Forall (fun a => format a = "png") added).
Proof.
  split.
  - intros db d. eexists. unfold create_artifact. simpl. repeat split.
  - intros db job response now day. unfold handle_job_completion.
    destruct (json_get response "artifacts" _) as [ad|];
      [|exists []; rewrite app_nil_r; auto].
    destruct (json_get response "execution_time_seconds" _) as [et|];
      [|exists []; rewrite app_nil_r; auto].
    destruct (json_iter ad) as [items|]; [|exists []; rewrite app_nil_r; auto].
    destruct (save_artifacts_png items db job []) as (added & He & Hf).
    destruct (save_artifacts db job items []) as [db1 [ids|e]]; simpl in He.
    + exists added. split; [|assumption].
      cbv zeta. destruct (update_job_refused _); [exact He|].
      destruct (get_user _ _); simpl; exact He.
    + exists added. auto.
Qed.

End ArtifactFacts.

(** ** Admission *)

Section AdmissionFacts.

Lemma calculate_token_cost_cases (params : list (string * json)) :
  (dict_get "capability" params = Some (JStr "image") /\
   calculate_token_cost params = dec_1_0) \/
  (dict_get "capability" params <> Some (JStr "image") /\
   calculate_token_cost params = dec_0_5).
Proof.
  unfold calculate_token_cost.
  destruct (dict_get "capability" params) as [[| | |c| |]|];
    try (right; split; [discriminate|reflexivity]).
  destruct (String.eqb_spec c "image") as [->|ne].
  - left. auto.
  - right. split; [congruence|reflexivity].
Qed.

Lemma get_or_create_user_keeps (db : DB) (pf uid : string) (ip : option string) :
  let db' := fst (get_or_create_user db pf uid ip) in
  jobs db' = jobs db /\ usage_daily db' = usage_daily db /\ jobs_seq db' = jobs_seq db.
Proof.
  unfold get_or_create_user.
  destruct (fetch_user_plan _ _ _); [simpl; auto|].
  destruct (_ || _); simpl; auto.
Qed.

(** Admission never writes the usage counters. *)
Lemma create_job_keeps_usage (db : DB) (request : JobRequest) (now : Z) :
  usage_daily (fst (create_job db request now)) = usage_daily db.
Proof.
  unfold create_job.
  pose proof (get_or_create_user_keeps db (req_frontend request)
                (last_field EmptyString (req_user_ref request)) None) as (_ & Hu & _).
  destruct (get_or_create_user _ _ _ _) as [db1 [user|]]; simpl in *; [|exact Hu].
  destruct (getattr_tokens_used _); [|exact Hu].
  destruct (dec_gtb _ _); exact Hu.
Qed.

(** A request that is answered with an error leaves the jobs table as it
    was. *)
Lemma create_job_error_keeps_jobs (db : DB) (request : JobRequest) (now : Z)
      (code : Z) (detail : string) :
  snd (create_job db request now) = HttpError code detail ->
  jobs (fst (create_job db request now)) = jobs db.
Proof.
  unfold create_job.
  pose proof (get_or_create_user_keeps db (req_frontend request)
                (last_field EmptyString (req_user_ref request)) None) as (Hj & _ & _).
  destruct (get_or_create_user _ _ _ _) as [db1 [user|]]; simpl in *; [|auto].
  destruct (getattr_tokens_used _); [|auto].
  destruct (dec_gtb _ _); [auto|discriminate].
Qed.

(** A job is created only for a user without a usage row for the day, and
    only when the cost alone is within the limit. *)
Lemma create_job_admits_within_limit (db : DB) (request : JobRequest) (now : Z)
      (db' : DB) (resp : JobResponse) :
  create_job db request now = (db', Http200 resp) ->
  exists (db1 : DB) (user : UserPlan),
    get_or_create_user db (req_frontend request)
                       (last_field EmptyString (req_user_ref request)) None
    = (db1, Some user) /\
    get_usage db1 (user_id (up_user user)) (date_of now) = UsageDummy /\
    dec_gtb (dec_add (dec_of_int 0) (calculate_token_cost (req_params request)))
            (dec_of_int (limit_of user)) = false /\
    resp_cost_tokens resp = calculate_token_cost (req_params request) /\
    length (jobs db') = S (length (jobs db)).
Proof.
  unfold create_job.
  pose proof (get_or_create_user_keeps db (req_frontend request)
                (last_field EmptyString (req_user_ref request)) None) as (Hj & _ & _).
  destruct (get_or_create_user _ _ _ _) as [db1 [user|]]; simpl in Hj; [|discriminate].
  destruct (get_usage db1 _ _) eqn:Eu; simpl; [discriminate|].
  destruct (dec_gtb _ _) eqn:Eg; [discriminate|].
  intros [= <- <-]. exists db1, user. repeat split; auto.
  simpl. rewrite length_map, length_app, Hj. simpl. lia.
Qed.

(** The quota branch, for a user without a usage row for the day: a cost
    above the limit is answered 402 and nothing is written after the user
    lookup. *)
Lemma create_job_over_quota_without_row (db db1 : DB) (request : JobRequest) (now : Z)
      (user : UserPlan) :
  get_or_create_user db (req_frontend request)
                     (last_field EmptyString (req_user_ref request)) None
  = (db1, Some user) ->
  get_usage db1 (user_id (up_user user)) (date_of now) = UsageDummy ->
  dec_gtb (dec_add (dec_of_int 0) (calculate_token_cost (req_params request)))
          (dec_of_int (limit_of user)) = true ->
  create_job db request now = (db1, HttpError 402 "Insufficient quota").
Proof.
  intros Hu Hg Hq. unfold create_job. rewrite Hu, Hg. simpl.
  simpl in Hq. rewrite Hq. reflexivity.
Qed.

(** The quota branch itself: without a usage row the check compares the cost
    with the limit and answers 402, and the store is left as it was. *)
Example quota_exceeded_without_usage_row :
  create_job db_limit_0 (request "image" [("capability", JStr "image")]) 1000
  = (db_limit_0, HttpError 402 "Insufficient quota").
Proof. reflexivity. Qed.

End AdmissionFacts.

Section AdmissionClaims.

(** C5, as stated, fails.  A video request is returned the cost 0.5, which is
    not 2.0; two image requests are returned different costs, 0.5 when the
    params carry no capability entry and 1.0 when they carry "image"; the cost
    1.0 is written with one fractional digit. *)
Lemma video_request_costs_half_token :
  (exists resp,
      snd (create_job empty_db (request "video" [("capability", JStr "video")]) 1000)
      = Http200 resp /\
      resp_cost_tokens resp = dec_0_5 /\ dec_eqb (resp_cost_tokens resp) dec_2_0 = false) /\
  (exists resp resp',
      snd (create_job empty_db (request "image" [("prompt", JStr "cat")]) 1000)
      = Http200 resp /\
      snd (create_job empty_db (request "image" [("capability", JStr "image")]) 1000)
      = Http200 resp' /\
      resp_cost_tokens resp = dec_0_5 /\ resp_cost_tokens resp' = dec_1_0) /\
  fractional_digits (calculate_token_cost [("capability", JStr "image")]) = 1.
Proof.
  split; [|split].
  - eexists. vm_compute. repeat split; reflexivity.
  - eexists. eexists. vm_compute. repeat split; reflexivity.
  - reflexivity.
Qed.

(** C5, amended.  The cost of an admitted request is a function of the
    capability entry of its params: 1.0 when that entry is the string "image",
    0.5 in every other case (text, audio, video, another value, no entry).
    It is a decimal with one fractional digit, and the job row created for
    the request, which is QUEUED, holds the same amount. *)
Theorem admission_cost_by_params :
  forall (db : DB) (request : JobRequest) (now : Z) (db' : DB) (resp : JobResponse),
    create_job db request now = (db', Http200 resp) ->
    resp_cost_tokens resp = calculate_token_cost (req_params request) /\
    (dict_get "capability" (req_params request) = Some (JStr "image") ->
     resp_cost_tokens resp = dec_1_0) /\
    (dict_get "capability" (req_params request) <> Some (JStr "image") ->
     resp_cost_tokens resp = dec_0_5) /\
    fractional_digits (resp_cost_tokens resp) = 1 /\
    exists row : Job,
      last (jobs db') = Some row /\ id row = resp_job_id resp /\
      dec_eqb (cost_tokens row) (resp_cost_tokens resp) = true /\ status row = "QUEUED".
Proof.
  intros db request now db' resp H.
  assert (Hc : resp_cost_tokens resp = calculate_token_cost (req_params request)).
  { apply create_job_admits_within_limit in H as (? & ? & _ & _ & _ & Hc & _). exact Hc. }
  assert (Hrow : exists row : Job,
             last (jobs db') = Some row /\ id row = resp_job_id resp /\
             dec_eqb (cost_tokens row) (resp_cost_tokens resp) = true /\
             status row = "QUEUED").
  { revert H. unfold create_job.
    destruct (get_or_create_user _ _ _ _) as [db1 [user|]]; [|discriminate].
    destruct (getattr_tokens_used _); [|discriminate].
    destruct (dec_gtb _ _); [discriminate|].
    intros [= <- <-]. simpl.
    change (map ?f ?l) with (f <$> l).
    rewrite fmap_last, last_snoc. simpl.
    unfold update_row. simpl. rewrite Z.eqb_refl. simpl.
    eexists. split; [reflexivity|]. simpl. repeat split.
    unfold dec_eqb. apply Z.eqb_refl. }
  split; [exact Hc|]. split; [|split; [|split; [|exact Hrow]]]; rewrite Hc;
    destruct (calculate_token_cost_cases (req_params request)) as [[Hd Hv]|[Hd Hv]];
    rewrite Hv; try reflexivity; intros; congruence.
Qed.

Lemma admission_cost_by_params_witness :
  exists resp : JobResponse,
    snd (create_job empty_db (request "video" [("capability", JStr "video")]) 1000)
    = Http200 resp /\
    resp_cost_tokens resp = dec_0_5.
Proof.
  eexists. split; [reflexivity|].
  refine (proj1 (proj2 (proj2 (admission_cost_by_params empty_db
            (request "video" [("capability", JStr "video")]) 1000 _ _ eq_refl))) _).
  discriminate.
Defined.

(** C6 (the code departs from the claim).  The user's plan allows 20 tokens a
    day and the usage row of the day reads 19.5; an image request costs 1.0,
    so usage plus cost exceeds the limit.  The store returns the usage row as
    a driver row object, the quota check reads the attribute [tokens_used] of
    it, which a row object does not have, and the request is answered with
    status 500, not 402.  No job row is created. *)
Theorem quota_check_fails_on_usage_row :
  let rq := request "image" [("capability", JStr "image"); ("prompt", JStr "cat")] in
  get_usage db_used_19_5 1 (date_of 1000) = UsageRecord (mkUsage (mkDec 195 (-1)) 19) /\
  dec_gtb (dec_add (mkDec 195 (-1)) (calculate_token_cost (req_params rq)))
          (dec_of_int (daily_token_limit plan_free)) = true /\
  create_job db_used_19_5 rq 1000 = (db_used_19_5, HttpError 500 "Internal Server Error") /\
  snd (create_job db_used_19_5 rq 1000) <> HttpError 402 "Insufficient quota".
Proof. vm_compute. repeat split; try reflexivity. discriminate. Qed.

End AdmissionClaims.

(** * Further properties of the store, the registry and the dispatch *)

(** ** Users *)

Section UserFacts.

Lemma users_fresh_spec (db : DB) :
  users_fresh db = true <-> forall u, In u (users db) -> user_id u < users_seq db.
Proof.
  unfold users_fresh. rewrite forallb_forall.
  split; intros H u Hu; specialize (H u Hu); lia.
Qed.

Lemma fetch_user_plan_Some (db : DB) (sel : User -> bool) (us : list User) (row : UserPlan) :
  fetch_user_plan db sel us = Some row ->
  In (up_user row) us /\ sel (up_user row) = true /\ join_plan db (up_user row) = Some row.
Proof.
  induction us as [|u rest IH]; simpl; [discriminate|].
  destruct (sel u) eqn:Es.
  - destruct (join_plan db u) as [r|] eqn:Ej.
    + intros [= <-].
      assert (up_user r = u) as ->.
      { unfold join_plan in Ej. destruct (List.find _ _); [|discriminate].
        injection Ej as <-. reflexivity. }
      auto.
    + intros H. destruct (IH H) as (? & ? & ?). auto.
  - intros H. destruct (IH H) as (? & ? & ?). auto.
Qed.

Lemma fetch_user_plan_skip (db : DB) (sel : User -> bool) (l1 l2 : list User) :
  (forall u, In u l1 -> sel u = false) ->
  fetch_user_plan db sel (l1 ++ l2) = fetch_user_plan db sel l2.
Proof.
  induction l1 as [|u rest IH]; intros H; simpl; [reflexivity|].
  rewrite (H u (or_introl eq_refl)). apply IH. intros v Hv. apply H. right. exact Hv.
Qed.

Lemma join_plan_with_users (db : DB) (us : list User) (seq : Z) (u : User) :
  join_plan (with_users us seq db) u = join_plan db u.
Proof. reflexivity. Qed.

(** A call that returns a row returns the row of the requested identity, and
    asking again returns the same row and writes nothing. *)
Theorem get_or_create_user_idempotent :
  forall (db db' : DB) (pf uid : string) (ip ip' : option string) (row : UserPlan),
    users_fresh db = true ->
    get_or_create_user db pf uid ip = (db', Some row) ->
    platform (up_user row) = pf /\ platform_user_id (up_user row) = uid /\
    join_plan db' (up_user row) = Some row /\
    get_or_create_user db' pf uid ip' = (db', Some row) /\
    users_fresh db' = true.
Proof.
  intros db db' pf uid ip ip' row Hf. unfold get_or_create_user.
  destruct (fetch_user_plan db (same_identity pf uid) (users db)) as [r|] eqn:E.
  - intros [= <- <-].
    destruct (fetch_user_plan_Some _ _ _ _ E) as (Hin & Hsel & Hj).
    unfold same_identity in Hsel. apply andb_true_iff in Hsel as [H1 H2].
    apply String.eqb_eq in H1, H2.
    rewrite E. auto.
  - destruct (users_unique_violation db pf uid) eqn:Ev; cbn [orb]; [discriminate|].
    destruct (users_plan_violation db) eqn:Ep; [discriminate|].
    intros [= <- Hrow].
    set (new := mkUser (users_seq db) pf uid ip 1) in *.
    set (db1 := with_users (users db ++ [new]) (users_seq db + 1) db) in *.
    assert (Hold : forall u, In u (users db) -> (user_id u =? users_seq db) = false).
    { intros u Hu. pose proof (proj1 (users_fresh_spec db) Hf u Hu). lia. }
    assert (Hnone : forall u, In u (users db) -> same_identity pf uid u = false).
    { intros u Hu. unfold users_unique_violation in Ev.
      destruct (same_identity pf uid u) eqn:Es; [|reflexivity].
      assert (existsb (same_identity pf uid) (users db) = true)
        by (apply existsb_exists; eauto).
      congruence. }
    simpl in Hrow. rewrite (fetch_user_plan_skip db1 _ _ _ Hold) in Hrow.
    simpl in Hrow. rewrite Z.eqb_refl in Hrow.
    destruct (join_plan db1 new) as [r|] eqn:Ej; [|discriminate].
    injection Hrow as ->.
    assert (Hu : up_user row = new).
    { unfold join_plan in Ej. destruct (List.find _ _); [|discriminate].
      injection Ej as <-. reflexivity. }
    rewrite Hu. repeat split; auto.
    + change (users db1) with (users db ++ [new])%list.
      rewrite (fetch_user_plan_skip db1 _ _ _ Hnone). simpl.
      unfold same_identity. simpl. rewrite !String.eqb_refl. simpl.
      rewrite Ej. reflexivity.
    + apply users_fresh_spec. intros u Hu'. simpl in Hu'.
      apply in_app_iff in Hu' as [Hu'|[<-|[]]]; simpl.
      * pose proof (proj1 (users_fresh_spec db) Hf u Hu'). lia.
      * lia.
Qed.

Lemma get_or_create_user_idempotent_witness :
  exists (db' : DB) (row : UserPlan),
    get_or_create_user empty_db "telegram" "42" None = (db', Some row) /\
    get_or_create_user db' "telegram" "42" (Some "10.0.0.1") = (db', Some row).
Proof.
  eexists. eexists. split; [reflexivity|].
  exact (proj1 (proj2 (proj2 (proj2
           (get_or_create_user_idempotent empty_db _ "telegram" "42" None
              (Some "10.0.0.1") _ eq_refl eq_refl))))).
Defined.

End UserFacts.

Section DefaultPlan.

Lemma fetch_user_plan_none (db : DB) (sel : User -> bool) (us : list User) :
  (forall u, In u us -> sel u = false) -> fetch_user_plan db sel us = None.
Proof.
  intros H. rewrite <- (app_nil_r us). rewrite fetch_user_plan_skip; auto.
Qed.

(** When no plan has id 1, the first request of an unknown identity is
    answered 500 and the store is left as it was: the user row cannot be
    inserted on the default plan, so no user, no job and no usage row is
    written. *)
Theorem admission_without_default_plan :
  forall (db : DB) (request : JobRequest) (now : Z),
    (forall p, In p (plans db) -> plan_id p <> 1) ->
    users_unique_violation db (req_frontend request)
                           (last_field EmptyString (req_user_ref request)) = false ->
    create_job db request now = (db, internal_server_error).
Proof.
  intros db request now Hp Hv.
  set (pf := req_frontend request) in *.
  set (uid := last_field EmptyString (req_user_ref request)) in *.
  assert (Hnone : forall u, In u (users db) -> same_identity pf uid u = false).
  { intros u Hu. unfold users_unique_violation in Hv.
    destruct (same_identity pf uid u) eqn:Es; [|reflexivity].
    assert (existsb (same_identity pf uid) (users db) = true)
      by (apply existsb_exists; eauto).
    congruence. }
  assert (Hfk : users_plan_violation db = true).
  { unfold users_plan_violation.
    destruct (existsb _ (plans db)) eqn:E; [|reflexivity].
    apply existsb_exists in E as (p & Hin & He).
    apply Z.eqb_eq in He. destruct (Hp p Hin He). }
  assert (Hg : get_or_create_user db pf uid None = (db, None)).
  { unfold get_or_create_user.
    rewrite (fetch_user_plan_none db _ _ Hnone), Hv, Hfk. reflexivity. }
  unfold create_job. fold pf uid. rewrite Hg. reflexivity.
Qed.

Lemma admission_without_default_plan_witness :
  create_job (mkDB [mkPlan 2 100 1] [] [] [] ∅ 1 1 1)
             (request "image" [("capability", JStr "image")]) 1000
  = (mkDB [mkPlan 2 100 1] [] [] [] ∅ 1 1 1, internal_server_error).
Proof.
  refine (admission_without_default_plan (mkDB [mkPlan 2 100 1] [] [] [] ∅ 1 1 1)
            (request "image" [("capability", JStr "image")]) 1000 _ eq_refl).
  intros p [<-|[]]. simpl. lia.
Defined.

End DefaultPlan.

(** ** Usage counters *)

Section UsageFacts.

(** Writing a usage increment and reading the row back: the row of the key
    holds the increment, added to what the row held if there was one; every
    other key reads as before, and no other table is written. *)
Theorem update_usage_read_back :
  forall (db : DB) (uid date : Z) (tokens : Decimal) (n : Z),
    get_usage (update_usage db uid date tokens n) uid date
    = UsageRecord
        match usage_daily db !! (uid, date) with
        | Some u => mkUsage (dec_add (tokens_used u) tokens) (jobs_completed u + n)
        | None => mkUsage tokens n
        end /\
    (forall uid' date' : Z,
        (uid', date') <> (uid, date) ->
        get_usage (update_usage db uid date tokens n) uid' date' = get_usage db uid' date') /\
    jobs (update_usage db uid date tokens n) = jobs db /\
    users (update_usage db uid date tokens n) = users db /\
    artifacts (update_usage db uid date tokens n) = artifacts db.
Proof.
  intros db uid date tokens n. unfold get_usage, update_usage. simpl.
  rewrite lookup_insert_eq. split; [reflexivity|]. split; [|auto].
  intros uid' date' Hne. rewrite lookup_insert_ne by congruence. reflexivity.
Qed.

Lemma update_usage_read_back_witness :
  get_usage (update_usage db_used_19_5 1 0 dec_1_0 1) 1 1 = get_usage db_used_19_5 1 1.
Proof.
  refine (proj1 (proj2 (update_usage_read_back db_used_19_5 1 0 dec_1_0 1)) 1 1 _).
  intros [= H].
Defined.

End UsageFacts.

(** ** What a dispatch writes *)

Section DispatchWrites.

Lemma touches_only_refl (k : Z) (db db' : DB) :
  jobs db' = jobs db -> touches_only k db db'.
Proof.
  intros H. unfold touches_only. rewrite H. split; [reflexivity|]. eauto.
Qed.

Lemma touches_only_trans (k : Z) (a b c : DB) :
  touches_only k a b -> touches_only k b c -> touches_only k a c.
Proof.
  intros [La Ha] [Lb Hb]. split; [congruence|].
  intros n row Hn. destruct (Ha n row Hn) as (r1 & H1 & I1 & F1).
  destruct (Hb n r1 H1) as (r2 & H2 & I2 & F2).
  exists r2. split; [exact H2|]. split; [congruence|].
  intros Hne. rewrite F2 by congruence. auto.
Qed.

Lemma update_job_touches_only (db : DB) (k : Z) (kwargs : list Kwarg) :
  touches_only k db (update_job db k kwargs).
Proof.
  split; [unfold update_job; simpl; apply length_map|].
  intros n row Hn. exists (update_row k kwargs row).
  rewrite update_job_lookup, Hn. split; [reflexivity|].
  unfold update_row. destruct (Z.eqb_spec (id row) k) as [e|ne].
  - pose proof (fold_set_column_frame kwargs row) as F. simpl in F.
    split; [tauto|]. intros; contradiction.
  - auto.
Qed.

Lemma save_artifacts_keeps (items : list json) :
  forall (db : DB) (job : Job) (ids : list Z),
    let db' := fst (save_artifacts db job items ids) in
    jobs db' = jobs db /\ users db' = users db /\ plans db' = plans db /\
    usage_daily db' = usage_daily db /\ jobs_seq db' = jobs_seq db.
Proof.
  induction items as [|a rest IH]; intros db job ids; simpl; [auto|].
  destruct (json_get a "type" _); [|simpl; auto].
  destruct (json_get a "path" _); [|simpl; auto].
  destruct (json_get a "url" _); [|simpl; auto].
  destruct (json_get a "metadata" _); [|simpl; auto].
  destruct (create_artifact_refused _); [simpl; auto|].
  unfold create_artifact.
  match goal with
  | |- context [save_artifacts ?d job rest ?i] => specialize (IH d job i)
  end.
  simpl in IH. exact IH.
Qed.

Lemma get_user_id (db : DB) (k : Z) (u : User) : get_user db k = Some u -> user_id u = k.
Proof.
  unfold get_user. intros H. apply find_some in H as [_ H]. lia.
Qed.

(** The handler of a returned body either raises, having written no usage,
    or returns, having completed the rows of the job and billed it. *)
Lemma handle_job_completion_cases (db : DB) (job : Job) (response : json) (now day : Z) :
  let db' := fst (handle_job_completion db job response now day) in
  touches_only (id job) db db' /\ users db' = users db /\ plans db' = plans db /\
  ((exists e, snd (handle_job_completion db job response now day) = Some e /\
              usage_daily db' = usage_daily db) \/
   (snd (handle_job_completion db job response now day) = None /\
    usage_daily db' = billed (usage_daily db) job day /\
    forall (n : nat) (row : Job),
      jobs db !! n = Some row -> id row = id job ->
      exists row', jobs db' !! n = Some row' /\ status row' = "COMPLETED" /\
                   ended_at row' = Some now /\ error row' = error row)).
Proof.
  unfold handle_job_completion.
  destruct (json_get response "artifacts" _) as [ad|];
    [|simpl; split; [apply touches_only_refl; reflexivity|eauto 6]].
  destruct (json_get response "execution_time_seconds" _) as [et|];
    [|simpl; split; [apply touches_only_refl; reflexivity|eauto 6]].
  destruct (json_iter ad) as [items|];
    [|simpl; split; [apply touches_only_refl; reflexivity|eauto 6]].
  pose proof (save_artifacts_keeps items db job []) as (Kj & Ku & Kp & Kd & _).
  destruct (save_artifacts db job items []) as [db1 [ids|e]]; simpl in Kj, Ku, Kp, Kd.
  - cbv zeta. set (kw := [kw_status "COMPLETED"; _; _; _]).
    destruct (update_job_refused kw).
    { cbn [fst snd]. split; [apply touches_only_refl; exact Kj|]. split; [exact Ku|].
      split; [exact Kp|]. left. eauto. }
    assert (T : touches_only (id job) db (update_job db1 (id job) kw)).
    { eapply touches_only_trans; [apply touches_only_refl; exact Kj|].
      apply update_job_touches_only. }
    destruct (get_user (update_job db1 (id job) kw) (job_user_id job)) as [user|] eqn:Eu;
      cbn [fst snd].
    + split; [|split; [exact Ku|split; [exact Kp|]]].
      { destruct T as [L T]. split; [exact L|exact T]. }
      right. split; [reflexivity|]. split.
      * rewrite (get_user_id _ _ _ Eu). unfold billed. simpl. rewrite Kd. reflexivity.
      * intros n row Hn Hid. exists (update_row (id job) kw row).
        change (jobs (update_usage ?d _ _ _ _)) with (jobs d).
        rewrite update_job_lookup, Kj, Hn. split; [reflexivity|].
        unfold update_row. rewrite Hid, Z.eqb_refl. simpl. auto.
    + split; [exact T|]. split; [exact Ku|]. split; [exact Kp|].
      left. eexists. split; [reflexivity|exact Kd].
  - simpl. split; [apply touches_only_refl; exact Kj|]. split; [exact Ku|].
    split; [exact Kp|]. left. eauto.
Qed.

End DispatchWrites.

Section DispatchOutcome.

Lemma handle_job_failure_keeps (db : DB) (job : Job) (code msg : string) (now : Z) :
  touches_only (id job) db (handle_job_failure db job code msg now) /\
  users (handle_job_failure db job code msg now) = users db /\
  plans (handle_job_failure db job code msg now) = plans db /\
  usage_daily (handle_job_failure db job code msg now) = usage_daily db.
Proof.
  split; [apply update_job_touches_only|]. repeat split.
Qed.

Lemma failure_after (db db1 : DB) (job : Job) (msg : string) (now : Z) (n : nat) (row : Job) :
  touches_only (id job) db db1 ->
  jobs db !! n = Some row -> id row = id job ->
  exists row', jobs (handle_job_failure db1 job "DISPATCH_ERROR" msg now) !! n = Some row' /\
    status row' = "FAILED" /\ ended_at row' = Some now /\
    error_code row' = Some (JStr "DISPATCH_ERROR").
Proof.
  intros [_ T] Hn Hid. destruct (T n row Hn) as (r1 & H1 & I1 & _).
  destruct (handle_job_failure_row db1 job "DISPATCH_ERROR" msg now n r1 H1 ltac:(congruence))
    as (row' & Hl & Hs & He & Herr).
  exists row'. repeat split; auto. unfold error_code. rewrite Herr. reflexivity.
Qed.

Lemma dispatch_job_end_cases (db : DB) (r : Registry) (ref : nat) (job : Job)
      (x : Exchange) (c : Clock) :
  (usage_daily (fst (dispatch_job_end db r ref job x c)) = usage_daily db /\
   forall (n : nat) (row : Job),
     jobs db !! n = Some row -> id row = id job ->
     exists row', jobs (fst (dispatch_job_end db r ref job x c)) !! n = Some row' /\
       status row' = "FAILED" /\ ended_at row' = Some (t_failed c) /\
       error_code row' = Some (JStr "DISPATCH_ERROR")) \/
  (usage_daily (fst (dispatch_job_end db r ref job x c))
   = billed (usage_daily db) job (today c) /\
   forall (n : nat) (row : Job),
     jobs db !! n = Some row -> id row = id job ->
     exists row', jobs (fst (dispatch_job_end db r ref job x c)) !! n = Some row' /\
       status row' = "COMPLETED" /\ ended_at row' = Some (t_completed c) /\
       error row' = error row).
Proof.
  unfold dispatch_job_end. cbn [fst].
  destruct (run_job x) as [response|e].
  - pose proof (handle_job_completion_cases db job response (t_completed c) (today c))
      as (T & _ & _ & [(e & He & Hu)|(He & Hu & Hrows)]);
      destruct (handle_job_completion db job response (t_completed c) (today c))
        as [db1 res]; cbn [fst snd] in *; subst res.
    + left. split; [exact Hu|].
      intros n row Hn Hid. eapply failure_after; eauto.
    + right. auto.
  - left. split; [reflexivity|].
    intros n row Hn Hid. eapply failure_after; eauto.
    apply touches_only_refl. reflexivity.
Qed.

Lemma dispatch_job_end_touches (db : DB) (r : Registry) (ref : nat) (job : Job)
      (x : Exchange) (c : Clock) :
  touches_only (id job) db (fst (dispatch_job_end db r ref job x c)) /\
  users (fst (dispatch_job_end db r ref job x c)) = users db /\
  plans (fst (dispatch_job_end db r ref job x c)) = plans db.
Proof.
  unfold dispatch_job_end. cbn [fst].
  destruct (run_job x) as [response|e].
  - pose proof (handle_job_completion_cases db job response (t_completed c) (today c))
      as (T2 & Ku & Kp & _).
    destruct (handle_job_completion db job response (t_completed c) (today c))
      as [db2 [e|]]; cbn [fst snd] in *.
    + destruct (handle_job_failure_keeps db2 job "DISPATCH_ERROR" e (t_failed c))
        as (T3 & Ku3 & Kp3 & _).
      split; [eauto using touches_only_trans|]. split; congruence.
    + auto.
  - destruct (handle_job_failure_keeps db job "DISPATCH_ERROR" e (t_failed c))
      as (T3 & Ku3 & Kp3 & _). auto.
Qed.

Lemma dispatch_job_begin_end (db : DB) (r : Registry) (ref : nat) (job : Job)
      (x : Exchange) (c : Clock) :
  dispatch_job db r ref job x c
  = dispatch_job_end (fst (dispatch_job_begin db r ref job c))
                     (assign_status r ref "busy") ref job x c.
Proof. reflexivity. Qed.

Lemma dispatch_job_touches (db : DB) (r : Registry) (ref : nat) (job : Job)
      (x : Exchange) (c : Clock) :
  touches_only (id job) db (fst (dispatch_job db r ref job x c)) /\
  users (fst (dispatch_job db r ref job x c)) = users db /\
  plans (fst (dispatch_job db r ref job x c)) = plans db.
Proof.
  rewrite dispatch_job_begin_end.
  set (db1 := fst (dispatch_job_begin db r ref job c)).
  assert (T1 : touches_only (id job) db db1) by apply update_job_touches_only.
  assert (U1 : users db1 = users db) by reflexivity.
  assert (P1 : plans db1 = plans db) by reflexivity.
  destruct (dispatch_job_end_touches db1 (assign_status r ref "busy") ref job x c)
    as (T & Ku & Kp).
  split; [eauto using touches_only_trans|]. split; congruence.
Qed.

(** A dispatch ends in one of two ways, whatever the worker call did: every
    row of the job is FAILED with the code DISPATCH_ERROR and the usage
    counters are what they were; or every row of the job is COMPLETED, keeps
    the error it had, and the usage row of the job's user for the day has
    received the job's cost and one completed job.  Usage is never written
    for a job recorded as FAILED. *)
Theorem dispatch_job_end_outcome :
  forall (db : DB) (r : Registry) (ref : nat) (job : Job) (x : Exchange) (c : Clock),
    (usage_daily (fst (dispatch_job_end db r ref job x c)) = usage_daily db /\
     forall (n : nat) (row : Job),
       jobs db !! n = Some row -> id row = id job ->
       exists row', jobs (fst (dispatch_job_end db r ref job x c)) !! n = Some row' /\
         status row' = "FAILED" /\ ended_at row' = Some (t_failed c) /\
         error_code row' = Some (JStr "DISPATCH_ERROR")) \/
    (usage_daily (fst (dispatch_job_end db r ref job x c))
     = billed (usage_daily db) job (today c) /\
     forall (n : nat) (row : Job),
       jobs db !! n = Some row -> id row = id job ->
       exists row', jobs (fst (dispatch_job_end db r ref job x c)) !! n = Some row' /\
         status row' = "COMPLETED" /\ ended_at row' = Some (t_completed c) /\
         error row' = error row).
Proof. exact dispatch_job_end_cases. Qed.

Lemma dispatch_job_end_outcome_witness :
  exists row',
    jobs (fst (dispatch_job_end (db_with [image_job]) img_worker 0 image_job
                                (Response 200 (Some (JArr []))) clock)) !! 0%nat
    = Some row' /\ status row' = "FAILED".
Proof.
  destruct (dispatch_job_end_outcome (db_with [image_job]) img_worker 0 image_job
              (Response 200 (Some (JArr []))) clock) as [[_ H]|[Hu _]].
  - destruct (H 0%nat image_job eq_refl eq_refl) as (row' & Hl & Hs & _).
    exists row'. auto.
  - exfalso. vm_compute in Hu. discriminate Hu.
Defined.

(** A dispatch writes the rows of its own job and the status of its own
    worker object only: every other job row, the users and the plans are what
    they were, and so are the registry's dict and every other worker
    object. *)
Theorem dispatch_job_frame :
  forall (db : DB) (r : Registry) (ref : nat) (job : Job) (x : Exchange) (c : Clock),
    length (jobs (fst (dispatch_job db r ref job x c))) = length (jobs db) /\
    (forall (n : nat) (row : Job),
        jobs db !! n = Some row -> id row <> id job ->
        jobs (fst (dispatch_job db r ref job x c)) !! n = Some row) /\
    users (fst (dispatch_job db r ref job x c)) = users db /\
    plans (fst (dispatch_job db r ref job x c)) = plans db /\
    workers (snd (dispatch_job db r ref job x c)) = workers r /\
    (forall ref' : nat,
        ref' <> ref -> heap (snd (dispatch_job db r ref job x c)) !! ref' = heap r !! ref').
Proof.
  intros db r ref job x c.
  destruct (dispatch_job_touches db r ref job x c) as ([L T] & Ku & Kp).
  split; [exact L|]. split.
  { intros n row Hn Hne. destruct (T n row Hn) as (row' & Hl & _ & F).
    rewrite Hl, (F Hne). reflexivity. }
  split; [exact Ku|]. split; [exact Kp|]. split; [reflexivity|].
  intros ref' Hne. rewrite dispatch_job_begin_end.
  unfold dispatch_job_end, assign_status. cbn [snd heap].
  rewrite !list_lookup_alter_ne by congruence. reflexivity.
Qed.

Lemma dispatch_job_frame_witness :
  jobs (fst (dispatch_job (db_with [job_A; job_B]) img_worker 0 job_B
                          (Response 500 None) clock)) !! 0%nat = Some job_A.
Proof.
  refine (proj1 (proj2 (dispatch_job_frame (db_with [job_A; job_B]) img_worker 0 job_B
                          (Response 500 None) clock)) 0%nat job_A eq_refl _).
  simpl. lia.
Defined.

End DispatchOutcome.

Section DispatchOrder.

(** Where a row of the store after a dispatch comes from. *)
Lemma dispatch_job_rows (db : DB) (r : Registry) (ref : nat) (job : Job)
      (x : Exchange) (c : Clock) (j' : Job) :
  In j' (jobs (fst (dispatch_job db r ref job x c))) ->
  exists j, In j (jobs db) /\ id j' = id j /\
            (id j <> id job -> j' = j) /\ (id j = id job -> status j' <> "QUEUED").
Proof.
  intros Hin. apply list_elem_of_In, list_elem_of_lookup in Hin as [n Hn].
  destruct (dispatch_job_touches db r ref job x c) as ([L T] & _).
  destruct (lookup_lt_is_Some_2 (jobs db) n) as [row Hrow].
  { apply lookup_lt_Some in Hn. lia. }
  destruct (T n row Hrow) as (row' & Hl & Hid & F).
  rewrite Hn in Hl. injection Hl as <-.
  exists row. split; [apply list_elem_of_In, list_elem_of_lookup; eauto|].
  split; [exact Hid|]. split; [exact F|].
  intros e. rewrite dispatch_job_begin_end in Hn.
  set (db1 := fst (dispatch_job_begin db r ref job c)) in *.
  destruct (update_job_touches_only db (id job)
              [kw_status "RUNNING"; kw_started_at (t_started c);
               kw_worker_id (match heap r !! ref with Some w => wid w | None => "" end)])
    as [_ T1].
  destruct (T1 n row Hrow) as (row1 & H1 & I1 & _).
  destruct (dispatch_job_end_cases db1 (assign_status r ref "busy") ref job x c)
    as [[_ H]|[_ H]];
    destruct (H n row1 H1 ltac:(congruence)) as (r2 & H2 & Hs & _);
    rewrite Hn in H2; injection H2 as <-; rewrite Hs; discriminate.
Qed.

Lemma dispatch_order_fresh (n : nat) :
  forall (db : DB) (r : Registry) (ref : nat) (x : Exchange) (c : Clock) (done : list Z),
    (forall j, In j (jobs db) -> In (id j) done -> status j <> "QUEUED") ->
    List.NoDup (dispatch_order n db r ref x c) /\
    forall k, In k (dispatch_order n db r ref x c) -> ~ In k done.
Proof.
  induction n as [|n IH]; intros db r ref x c done Hdone; cbn [dispatch_order].
  { split; [constructor|]. intros k []. }
  destruct (heap r !! ref) as [worker|]; [|split; [constructor|intros k []]].
  destruct (select_next_job db worker) as [job|] eqn:Es; [|split; [constructor|intros k []]].
  destruct (select_next_job_queued _ _ _ Es) as [Hin Hq].
  assert (Hnew : ~ In (id job) done).
  { intros Hd. exact (Hdone job Hin Hd Hq). }
  pose proof (dispatch_job_rows db r ref job x c) as Hrows.
  destruct (dispatch_job db r ref job x c) as [db' r']. cbn [fst] in Hrows.
  destruct (IH db' r' ref x c (id job :: done)) as [Hnd Hdis].
  { intros j' Hj' Hd. destruct (Hrows j' Hj') as (j & Hj & Hid & F & Q).
    destruct (Z.eq_dec (id j) (id job)) as [e|ne]; [exact (Q e)|].
    rewrite (F ne) in *. destruct Hd as [Hd|Hd]; [congruence|]. exact (Hdone j Hj Hd). }
  split.
  - constructor; [|exact Hnd]. intros Hk. apply (Hdis _ Hk). left. reflexivity.
  - intros k [<-|Hk]; [exact Hnew|]. intros Hd. apply (Hdis _ Hk). right. exact Hd.
Qed.

(** When every dispatch runs to its end before the next selection (one worker
    serving the queue), no job id is dispatched twice, whatever the worker
    answers. *)
Theorem dispatch_order_no_repeat :
  forall (n : nat) (db : DB) (r : Registry) (ref : nat) (x : Exchange) (c : Clock),
    List.NoDup (dispatch_order n db r ref x c).
Proof.
  intros n db r ref x c.
  apply (dispatch_order_fresh n db r ref x c []). intros j _ [].
Qed.

(** Once a dispatch has written RUNNING to the rows of its job, and again
    once it has run to its end, no selection returns a row of that job. *)
Theorem dispatched_job_leaves_queue :
  forall (db : DB) (r : Registry) (ref : nat) (job : Job) (x : Exchange) (c : Clock)
         (w : WorkerProxy) (j : Job),
    (select_next_job (fst (dispatch_job_begin db r ref job c)) w = Some j ->
     id j <> id job) /\
    (select_next_job (fst (dispatch_job db r ref job x c)) w = Some j ->
     id j <> id job).
Proof.
  intros db r ref job x c w j. split.
  - apply started_job_not_selected.
  - intros H. apply select_next_job_queued in H as [Hin Hs].
    destruct (dispatch_job_rows db r ref job x c j Hin) as (j0 & _ & Hid & _ & Q).
    intros e. apply Q; congruence.
Qed.

Lemma dispatched_job_leaves_queue_witness :
  select_next_job (fst (dispatch_job (db_with [job_A; job_B]) img_worker 0 job_B
                                     (Response 500 None) clock)) txt = Some job_A /\
  id job_A <> id job_B.
Proof.
  split; [reflexivity|].
  exact (proj2 (dispatched_job_leaves_queue (db_with [job_A; job_B]) img_worker 0 job_B
                  (Response 500 None) clock txt job_A) eq_refl).
Defined.

End DispatchOrder.

(** ** Well-formed worker answers *)

Section Completion.

Lemma with_artifacts_twice (db : DB) (a b : list Artifact) (m n : Z) :
  with_artifacts a m (with_artifacts b n db) = with_artifacts a m db.
Proof. reflexivity. Qed.

Lemma save_artifacts_accepted (items : list json) :
  forall (db : DB) (job : Job) (ids : list Z),
    forallb accepted_item items = true ->
    exists added : list Artifact,
      save_artifacts db job items ids
      = (with_artifacts (artifacts db ++ added)
                        (artifacts_seq db + Z.of_nat (length items)) db,
         inl (ids ++ List.map artifact_id added)%list) /\
      length added = length items /\
      List.map artifact_id added = seqZ (artifacts_seq db) (Z.of_nat (length items)) /\
      Forall (fun a => artifact_job_id a = id job /\ format a = "png") added /\
      List.map (fun a => Some (artifact_type a)) added
      = List.map (fun i => json_get i "type" (JStr "image")) items /\
      List.map (fun a => Some (local_path a, public_url a, artifact_metadata a)) added
      = List.map (fun i => match i with
                           | JObj kv => Some (default JNull (dict_get "path" kv),
                                              default JNull (dict_get "url" kv),
                                              default (JObj []) (dict_get "metadata" kv))
                           | _ => None
                           end) items.
Proof.
  induction items as [|a rest IH]; intros db job ids Hd.
  - exists []. simpl. rewrite !app_nil_r, Z.add_0_r.
    destruct db. repeat split; constructor.
  - simpl in Hd. apply andb_true_iff in Hd as [Ha Hrest].
    destruct a as [| | | | |kv]; try discriminate Ha.
    cbn [save_artifacts json_get]. cbv zeta.
    unfold create_artifact_refused. cbn [ad_type ad_path ad_url].
    unfold accepted_item in Ha. rewrite Ha. cbn [negb].
    unfold create_artifact.
    cbn [ad_job_id ad_type ad_path ad_url ad_metadata].
    set (row := mkArtifact (artifacts_seq db) (id job)
                           (default (JStr "image") (dict_get "type" kv))
                           (default JNull (dict_get "path" kv))
                           (default JNull (dict_get "url" kv))
                           (default (JObj []) (dict_get "metadata" kv)) "png").
    set (db1 := with_artifacts (artifacts db ++ [row]) (artifacts_seq db + 1) db).
    destruct (IH db1 job (ids ++ [artifacts_seq db])%list Hrest)
      as (added & Hs & Hl & Hi & Hf & Ht & Hm).
    exists (row :: added). rewrite Hs. subst db1. rewrite with_artifacts_twice.
    cbn [artifacts with_artifacts artifacts_seq] in *.
    split.
    { f_equal.
      - rewrite <- app_assoc. cbn [length]. f_equal. lia.
      - cbn [List.map]. rewrite <- app_assoc. reflexivity. }
    split; [cbn [length]; congruence|]. split.
    { cbn [List.map length]. rewrite seqZ_cons by lia. f_equal.
      rewrite Hi. f_equal; lia. }
    split; [constructor; [split; reflexivity|exact Hf]|].
    split; cbn [List.map]; [rewrite Ht|rewrite Hm]; reflexivity.
Qed.

Lemma completion_kwargs_accepted (now : Z) (seconds : json) (ids : list Z) :
  update_job_refused
    [kw_status "COMPLETED"; kw_ended_at now; kw_execution_time_seconds seconds;
     kw_metadata (JObj [("artifact_ids", JArr (map JInt ids))])]
  = negb (optional_number seconds).
Proof.
  unfold update_job_refused. cbn -[optional_number].
  rewrite andb_true_r. reflexivity.
Qed.

Lemma handle_job_completion_accepted :
  forall (db : DB) (job : Job) (response : json) (items : list json) (seconds : json)
         (now day : Z) (user : User),
    json_get response "artifacts" (JArr []) = Some (JArr items) ->
    forallb accepted_item items = true ->
    json_get response "execution_time_seconds" (JInt 0) = Some seconds ->
    optional_number seconds = true ->
    get_user db (job_user_id job) = Some user ->
    exists added : list Artifact,
      snd (handle_job_completion db job response now day) = None /\
      artifacts (fst (handle_job_completion db job response now day))
      = (artifacts db ++ added)%list /\
      length added = length items /\
      List.map artifact_id added = seqZ (artifacts_seq db) (Z.of_nat (length items)) /\
      Forall (fun a => artifact_job_id a = id job /\ format a = "png") added /\
      List.map (fun a => Some (artifact_type a)) added
      = List.map (fun i => json_get i "type" (JStr "image")) items /\
      List.map (fun a => Some (local_path a, public_url a, artifact_metadata a)) added
      = List.map (fun i => match i with
                           | JObj kv => Some (default JNull (dict_get "path" kv),
                                              default JNull (dict_get "url" kv),
                                              default (JObj []) (dict_get "metadata" kv))
                           | _ => None
                           end) items /\
      usage_daily (fst (handle_job_completion db job response now day))
      = billed (usage_daily db) job day /\
      forall (n : nat) (row : Job),
        jobs db !! n = Some row -> id row = id job ->
        exists row',
          jobs (fst (handle_job_completion db job response now day)) !! n = Some row' /\
          status row' = "COMPLETED" /\
          metadata row'
          = JObj [("artifact_ids", JArr (List.map JInt (List.map artifact_id added)))] /\
          ended_at row' = Some now /\ execution_time_seconds row' = Some seconds.
Proof.
  intros db job response items seconds now day user Ha Hd Hs' Hn' Hu.
  destruct response as [| | | | |kv]; try discriminate Ha.
  destruct (save_artifacts_accepted items db job [] Hd)
    as (added & Hs & Hl & Hi & Hf & Ht & Hm).
  exists added. unfold handle_job_completion. rewrite Ha, Hs'.
  cbn [json_iter]. rewrite Hs. cbn [app]. cbv zeta.
  rewrite completion_kwargs_accepted, Hn'. cbn [negb].
  set (db1 := with_artifacts _ _ db).
  set (kw := [kw_status "COMPLETED"; _; _; _]).
  assert (Hu' : get_user (update_job db1 (id job) kw) (job_user_id job) = Some user)
    by exact Hu.
  rewrite Hu'. cbn [fst snd].
  split; [reflexivity|]. split; [reflexivity|]. split; [exact Hl|]. split; [exact Hi|].
  split; [exact Hf|]. split; [exact Ht|]. split; [exact Hm|]. split.
  - rewrite (get_user_id _ _ _ Hu). reflexivity.
  - intros n row Hn Hid. exists (update_row (id job) kw row).
    change (jobs (update_usage ?d _ _ _ _)) with (jobs d).
    rewrite update_job_lookup. change (jobs db1) with (jobs db). rewrite Hn.
    split; [reflexivity|]. unfold update_row. rewrite Hid, Z.eqb_refl. simpl. auto.
Qed.

(** A returned body whose [artifacts] entry is a list of accepted items (or
    is missing) and whose [execution_time_seconds] is a number or null (or is
    missing), for a job whose user exists: the handler returns without an
    exception; it has appended one artifact row per item, in order, each with
    the job's id, the next artifact id of the sequence, the item's type (image
    when the item names none), its path, url and metadata (null, null and the
    empty dict when missing) and the format png; every row of the job is
    COMPLETED, ended at the handler's clock reading, with the seconds of the
    body and a metadata that lists exactly the ids of these artifact rows; the
    job is billed once. *)
Theorem completion_records_artifacts :
  forall (db : DB) (job : Job) (response : json) (items : list json) (seconds : json)
         (now day : Z) (user : User),
    json_get response "artifacts" (JArr []) = Some (JArr items) ->
    forallb accepted_item items = true ->
    json_get response "execution_time_seconds" (JInt 0) = Some seconds ->
    optional_number seconds = true ->
    get_user db (job_user_id job) = Some user ->
    exists added : list Artifact,
      snd (handle_job_completion db job response now day) = None /\
      artifacts (fst (handle_job_completion db job response now day))
      = (artifacts db ++ added)%list /\
      length added = length items /\
      List.map artifact_id added = seqZ (artifacts_seq db) (Z.of_nat (length items)) /\
      Forall (fun a => artifact_job_id a = id job /\ format a = "png") added /\
      List.map (fun a => Some (artifact_type a)) added
      = List.map (fun i => json_get i "type" (JStr "image")) items /\
      List.map (fun a => Some (local_path a, public_url a, artifact_metadata a)) added
      = List.map (fun i => match i with
                           | JObj kv => Some (default JNull (dict_get "path" kv),
                                              default JNull (dict_get "url" kv),
                                              default (JObj []) (dict_get "metadata" kv))
                           | _ => None
                           end) items /\
      usage_daily (fst (handle_job_completion db job response now day))
      = billed (usage_daily db) job day /\
      forall (n : nat) (row : Job),
        jobs db !! n = Some row -> id row = id job ->
        exists row',
          jobs (fst (handle_job_completion db job response now day)) !! n = Some row' /\
          status row' = "COMPLETED" /\
          metadata row'
          = JObj [("artifact_ids", JArr (List.map JInt (List.map artifact_id added)))] /\
          ended_at row' = Some now /\ execution_time_seconds row' = Some seconds.
Proof. exact handle_job_completion_accepted. Qed.

Lemma completion_records_artifacts_witness :
  exists added : list Artifact,
    artifacts (fst (handle_job_completion (db_with [image_job]) image_job body_completed
                                          20 0))
    = added /\ length added = 1%nat.
Proof.
  destruct (completion_records_artifacts (db_with [image_job]) image_job body_completed
              [JObj [("type", JStr "image"); ("path", JStr "/tmp/dummy.png")]] (JInt 5)
              20 0 user42 eq_refl eq_refl eq_refl eq_refl eq_refl)
    as (added & _ & Ha & Hl & _).
  exists added. split; [exact Ha|exact Hl].
Defined.

End Completion.

(** ** Admission of a job *)

Section AdmissionRow.

Lemma jobs_fresh_spec (db : DB) :
  jobs_fresh db = true <-> forall j, In j (jobs db) -> id j < jobs_seq db.
Proof.
  unfold jobs_fresh. rewrite forallb_forall.
  split; intros H j Hj; specialize (H j Hj); lia.
Qed.

Lemma find_app_skip {A} (f : A -> bool) (l1 l2 : list A) :
  (forall a, In a l1 -> f a = false) -> List.find f (l1 ++ l2) = List.find f l2.
Proof.
  induction l1 as [|a rest IH]; intros H; simpl; [reflexivity|].
  rewrite (H a (or_introl eq_refl)). apply IH. intros b Hb. apply H. right. exact Hb.
Qed.

Lemma map_update_row_fresh (js : list Job) (k : Z) (kw : list Kwarg) :
  (forall j, In j js -> id j < k) -> List.map (update_row k kw) js = js.
Proof.
  intros H. induction js as [|j rest IH]; simpl; [reflexivity|].
  rewrite IH by (intros; apply H; right; assumption).
  unfold update_row. pose proof (H j (or_introl eq_refl)).
  destruct (Z.eqb_spec (id j) k); [lia|reflexivity].
Qed.

(** The jobs counted ahead of a job of priority [p] created at [t]. *)
Lemma filter_ext_in {A} (f g : A -> bool) (l : list A) :
  (forall a, In a l -> f a = g a) -> List.filter f l = List.filter g l.
Proof.
  induction l as [|a rest IH]; intros H; simpl; [reflexivity|].
  rewrite (H a (or_introl eq_refl)), IH; [reflexivity|].
  intros b Hb. apply H. right. exact Hb.
Qed.

Lemma create_job_appends :
  forall (db db' : DB) (request : JobRequest) (now : Z) (resp : JobResponse),
    jobs_fresh db = true ->
    create_job db request now = (db', Http200 resp) ->
    exists row : Job,
      jobs db' = (jobs db ++ [row])%list /\
      id row = jobs_seq db /\ resp_job_id resp = jobs_seq db /\
      status row = "QUEUED" /\ resp_status resp = "QUEUED" /\
      capability row = req_capability request /\ frontend row = req_frontend request /\
      bot_id row = req_bot_id request /\ params row = req_params request /\
      metadata row = match req_reply_context request with
                     | Some d => JObj d
                     | None => JNull
                     end /\
      created_at row = now /\ queued_at row = Some now /\
      started_at row = None /\ ended_at row = None /\ worker_id row = None /\
      error row = None /\
      dec_eqb (cost_tokens row) (calculate_token_cost (req_params request)) = true /\
      (exists user : UserPlan,
          snd (get_or_create_user db (req_frontend request)
                 (last_field EmptyString (req_user_ref request)) None) = Some user /\
          job_user_id row = user_id (up_user user) /\
          priority row = up_priority user) /\
      queue_position resp
      = Z.of_nat (length (List.filter
          (fun j => String.eqb (status j) "QUEUED" &&
                    ((priority j >? priority row) ||
                     ((priority j =? priority row) && (created_at j <? now))))
          (jobs db))) /\
      estimated_time_seconds resp = (queue_position resp + 1) * 20 /\
      jobs_fresh db' = true.
Proof.
  intros db db' request now resp Hf. unfold create_job.
  pose proof (get_or_create_user_keeps db (req_frontend request)
                (last_field EmptyString (req_user_ref request)) None) as (Hj & _ & Hq).
  destruct (get_or_create_user _ _ _ _) as [db1 [user|]]; simpl in Hj, Hq; [|discriminate].
  destruct (getattr_tokens_used _); [|discriminate].
  destruct (dec_gtb _ _); [discriminate|].
  unfold Database.create_job. cbn [jd_user_id jd_frontend jd_bot_id jd_capability jd_status
    jd_priority jd_params jd_cost_tokens jd_reply_context jd_created_at].
  rewrite Hq, Hj.
  set (row0 := mkJob (jobs_seq db) _ _ _ _ "CREATED" _ _ _ _ _ None None None None None None).
  set (kw := [kw_status "QUEUED"; kw_queued_at now]).
  set (row := fold_left set_column kw row0).
  pose proof (proj1 (jobs_fresh_spec db) Hf) as Hlt.
  assert (Hjobs : jobs (update_job (with_jobs (jobs db ++ [row0]) (jobs_seq db + 1) db1)
                                   (jobs_seq db) kw) = (jobs db ++ [row])%list).
  { unfold update_job. cbn [jobs with_jobs]. rewrite map_app.
    rewrite (map_update_row_fresh _ _ _ Hlt). cbn [List.map].
    unfold update_row. cbn [id row0]. subst row0. cbn [id]. rewrite Z.eqb_refl.
    reflexivity. }
  intros [= <- <-]. exists row. rewrite Hjobs.
  assert (Hcount : count_queued_jobs_before
                     (update_job (with_jobs (jobs db ++ [row0]) (jobs_seq db + 1) db1)
                                 (jobs_seq db) kw) (jobs_seq db) (up_priority user)
                   = Z.of_nat (length (List.filter
                       (fun j => String.eqb (status j) "QUEUED" &&
                                 ((priority j >? priority row) ||
                                  ((priority j =? priority row) && (created_at j <? now))))
                       (jobs db)))).
  { unfold count_queued_jobs_before, created_at_of. rewrite Hjobs.
    rewrite find_app_skip
      by (intros j Hj'; specialize (Hlt j Hj'); lia).
    cbn [List.find]. subst row row0. cbn [fold_left set_column kw id]. rewrite Z.eqb_refl.
    cbn [fmap option_fmap option_map created_at priority].
    rewrite List.filter_app. cbn [List.filter status priority created_at].
    rewrite Z.gtb_ltb, !Z.ltb_irrefl, Z.eqb_refl.
    cbn [orb andb]. rewrite andb_false_r, app_nil_r. reflexivity. }
  cbn [resp_job_id resp_status queue_position estimated_time_seconds].
  rewrite Hcount. unfold estimate_job_time.
  subst row row0 kw. cbn [fold_left set_column].
  cbn [id status capability frontend bot_id params metadata created_at queued_at
       started_at ended_at worker_id error priority cost_tokens job_user_id].
  do 16 (split; [reflexivity|]).
  split; [unfold dec_eqb; apply Z.eqb_refl|].
  split; [exists user; cbn [fst snd]; repeat split|].
  repeat (split; [reflexivity|]).
  apply jobs_fresh_spec. rewrite Hjobs. cbn [jobs_seq update_job with_jobs].
  intros j Hj'. apply in_app_iff in Hj' as [Hj'|[<-|[]]].
  - specialize (Hlt j Hj'). lia.
  - cbn [fold_left set_column id]. lia.
Qed.

(** An admitted request appends one row to the jobs table and changes no
    other row.  The row has the next id of the sequence, is QUEUED, carries
    the request's capability, frontend, bot id and params, the cost computed
    from the params, the id and the plan priority of the user the lookup
    returned, the reply context in its metadata column, and has no start,
    end, worker or error.  The answer names that id, and its queue position
    is the number of QUEUED rows present before with a higher priority, or
    the same priority and an earlier creation time; the estimated time is 20
    seconds times the position plus one. *)
Theorem admission_appends_job :
  forall (db db' : DB) (request : JobRequest) (now : Z) (resp : JobResponse),
    jobs_fresh db = true ->
    create_job db request now = (db', Http200 resp) ->
    exists row : Job,
      jobs db' = (jobs db ++ [row])%list /\
      id row = jobs_seq db /\ resp_job_id resp = jobs_seq db /\
      status row = "QUEUED" /\ resp_status resp = "QUEUED" /\
      capability row = req_capability request /\ frontend row = req_frontend request /\
      bot_id row = req_bot_id request /\ params row = req_params request /\
      metadata row = match req_reply_context request with
                     | Some d => JObj d
                     | None => JNull
                     end /\
      created_at row = now /\ queued_at row = Some now /\
      started_at row = None /\ ended_at row = None /\ worker_id row = None /\
      error row = None /\
      dec_eqb (cost_tokens row) (calculate_token_cost (req_params request)) = true /\
      (exists user : UserPlan,
          snd (get_or_create_user db (req_frontend request)
                 (last_field EmptyString (req_user_ref request)) None) = Some user /\
          job_user_id row = user_id (up_user user) /\
          priority row = up_priority user) /\
      queue_position resp
      = Z.of_nat (length (List.filter
          (fun j => String.eqb (status j) "QUEUED" &&
                    ((priority j >? priority row) ||
                     ((priority j =? priority row) && (created_at j <? now))))
          (jobs db))) /\
      estimated_time_seconds resp = (queue_position resp + 1) * 20 /\
      jobs_fresh db' = true.
Proof. exact create_job_appends. Qed.

Lemma admission_appends_job_witness :
  exists row : Job,
    jobs (fst (create_job (db_with [job_A])
                          (request "image" [("capability", JStr "image")]) 1000))
    = [job_A; row] /\ status row = "QUEUED".
Proof.
  destruct (admission_appends_job (db_with [job_A]) _
              (request "image" [("capability", JStr "image")]) 1000 _ eq_refl eq_refl)
    as (row & Hj & _ & _ & Hs & _).
  exists row. split; [exact Hj|exact Hs].
Defined.

End AdmissionRow.

(** ** The queue position and the selection *)

Section QueueOrder.

Lemma get_next_queued_job_is_Some (db : DB) (p : Z) (caps : list string) (k : Job) :
  In k (jobs db) -> status k = "QUEUED" -> priority k = p ->
  exists j, get_next_queued_job db p caps = Some j.
Proof.
  intros Hk Hs Hp. destruct (get_next_queued_job db p caps) as [j|] eqn:E; [eauto|].
  exfalso. exact (get_next_queued_job_None db p caps E k Hk Hs Hp).
Qed.

Lemma filter_nil_false {A} (f : A -> bool) (l : list A) :
  List.filter f l = [] -> forall a, In a l -> f a = false.
Proof.
  intros H a Ha. destruct (f a) eqn:E; [|reflexivity].
  assert (Hin : In a (List.filter f l)) by (apply filter_In; auto).
  rewrite H in Hin. destruct Hin.
Qed.

Lemma tier_empty (db : DB) (p : Z) (caps : list string) :
  (forall k, In k (jobs db) -> status k = "QUEUED" -> priority k <> p) ->
  get_next_queued_job db p caps = None.
Proof.
  intros H. destruct (get_next_queued_job db p caps) as [j|] eqn:E; [|reflexivity].
  apply get_next_queued_job_Some in E as (Hin & Hs & Hp & _).
  exfalso. exact (H j Hin Hs Hp).
Qed.

(** Selection returns no job exactly when no QUEUED row has a priority among
    0, 1, 2, 3: a QUEUED row of another priority is never selected, and a
    QUEUED row of one of these priorities is enough for a job to be
    selected. *)
Theorem select_next_job_none :
  forall (db : DB) (w : WorkerProxy),
    select_next_job db w = None <->
    forall j, In j (jobs db) -> status j = "QUEUED" -> priority j < 0 \/ 3 < priority j.
Proof.
  intros db w. unfold select_next_job. cbn [first_queued]. split.
  - destruct (get_next_queued_job db 3 _) eqn:E3; [discriminate|].
    destruct (get_next_queued_job db 2 _) eqn:E2; [discriminate|].
    destruct (get_next_queued_job db 1 _) eqn:E1; [discriminate|].
    destruct (get_next_queued_job db 0 _) eqn:E0; [discriminate|].
    intros _ j Hj Hs.
    pose proof (get_next_queued_job_None _ _ _ E3 j Hj Hs).
    pose proof (get_next_queued_job_None _ _ _ E2 j Hj Hs).
    pose proof (get_next_queued_job_None _ _ _ E1 j Hj Hs).
    pose proof (get_next_queued_job_None _ _ _ E0 j Hj Hs).
    lia.
  - intros H.
    rewrite !tier_empty; [reflexivity| | | |];
      intros k Hk Hs; specialize (H k Hk Hs); lia.
Qed.

Lemma select_next_job_none_witness :
  select_next_job (db_with [queued_job 1 "image" 7 1]) txt = None.
Proof.
  apply (proj2 (select_next_job_none (db_with [queued_job 1 "image" 7 1]) txt)).
  intros j [<-|[]] _. simpl. lia.
Defined.

(** A QUEUED job with queue position 0 is at the head of the selection: the
    job selected next has its priority and its creation time (it is that job,
    or one created at the same instant). *)
Theorem queue_head_is_selected :
  forall (db : DB) (job : Job) (w : WorkerProxy),
    In job (jobs db) -> status job = "QUEUED" -> 0 <= priority job <= 3 ->
    created_at_of db (id job) = Some (created_at job) ->
    count_queued_jobs_before db (id job) (priority job) = 0 ->
    exists j, select_next_job db w = Some j /\
              priority j = priority job /\ created_at j = created_at job.
Proof.
  intros db job w Hin Hs Hr Hc H0.
  unfold count_queued_jobs_before in H0. cbv zeta in H0. rewrite Hc in H0.
  cbv beta iota in H0.
  assert (Hnil : List.filter
            (fun j => String.eqb (status j) "QUEUED" &&
                      ((priority j >? priority job) ||
                       ((priority j =? priority job) &&
                        (created_at j <? created_at job)))) (jobs db) = []).
  { destruct (List.filter _ (jobs db)); [reflexivity|]. simpl in H0. lia. }
  assert (Hpred : forall k, In k (jobs db) -> status k = "QUEUED" ->
                            priority k <= priority job /\
                            (priority k = priority job -> created_at job <= created_at k)).
  { intros k Hk Hks.
    pose proof (filter_nil_false _ _ Hnil k Hk) as Hf.
    cbv beta in Hf. rewrite (proj2 (String.eqb_eq _ _) Hks) in Hf. cbn [andb] in Hf.
    apply orb_false_iff in Hf as [Hgt Heq].
    apply andb_false_iff in Heq. lia. }
  assert (Hup : forall p, priority job < p ->
                          get_next_queued_job db p (capabilities w) = None).
  { intros p Hp. apply tier_empty. intros k Hk Hks.
    destruct (Hpred k Hk Hks). lia. }
  destruct (get_next_queued_job_is_Some db (priority job) (capabilities w) job Hin Hs eq_refl)
    as [j Hj].
  exists j.
  pose proof (get_next_queued_job_Some _ _ _ _ Hj) as (Hjin & Hjs & Hjp & Hfifo).
  split.
  - unfold select_next_job. cbn [first_queued].
    assert (Hcase : priority job = 3 \/ priority job = 2 \/ priority job = 1 \/
                    priority job = 0) by lia.
    destruct Hcase as [e|[e|[e|e]]]; rewrite e in *.
    + rewrite Hj. reflexivity.
    + rewrite (Hup 3) by lia. rewrite Hj. reflexivity.
    + rewrite (Hup 3), (Hup 2) by lia. rewrite Hj. reflexivity.
    + rewrite (Hup 3), (Hup 2), (Hup 1) by lia. rewrite Hj. reflexivity.
  - split; [exact Hjp|].
    destruct (Hpred j Hjin Hjs) as [_ Hle]. specialize (Hle Hjp).
    specialize (Hfifo job Hin Hs eq_refl). lia.
Qed.

Lemma queue_head_is_selected_witness :
  exists j, select_next_job (db_with [job_A; job_B; job_C]) txt = Some j /\
            priority j = priority job_B /\ created_at j = created_at job_B.
Proof.
  apply (queue_head_is_selected (db_with [job_A; job_B; job_C]) job_B txt).
  - simpl. auto.
  - reflexivity.
  - simpl. lia.
  - reflexivity.
  - reflexivity.
Defined.

End QueueOrder.

(** ** Finding an idle worker *)

Section IdleWorker.

Lemma first_idle_Some (now : Z) (hp : list WorkerProxy) (refs : list (string * nat))
      (ref : nat) :
  first_idle now hp refs = Some ref ->
  exists (k : string) (w : WorkerProxy),
    In (k, ref) refs /\ hp !! ref = Some w /\ wstatus w = "idle" /\
    now - last_heartbeat w < 60000000.
Proof.
  induction refs as [|[k r0] rest IH]; simpl; [discriminate|].
  destruct (hp !! r0) as [w|] eqn:E.
  - destruct (String.eqb_spec (wstatus w) "idle") as [Hs|_]; simpl.
    + unfold is_healthy. destruct (Z.ltb_spec (now - last_heartbeat w) (60 * 1000000)).
      * intros [= <-]. exists k, w. repeat split; auto.
      * intros H'. destruct (IH H') as (k' & w' & ? & ?). eauto 6.
    + intros H'. destruct (IH H') as (k' & w' & ? & ?). eauto 6.
  - intros H'. destruct (IH H') as (k' & w' & ? & ?). eauto 6.
Qed.

Lemma first_idle_None (now : Z) (hp : list WorkerProxy) (refs : list (string * nat)) :
  first_idle now hp refs = None ->
  forall (k : string) (ref : nat) (w : WorkerProxy),
    In (k, ref) refs -> hp !! ref = Some w ->
    wstatus w <> "idle" \/ 60000000 <= now - last_heartbeat w.
Proof.
  induction refs as [|[k0 r0] rest IH]; simpl; [intros _ k ref w []|].
  destruct (hp !! r0) as [w0|] eqn:E.
  - destruct (String.eqb_spec (wstatus w0) "idle") as [Hs|Hs]; simpl.
    + unfold is_healthy. destruct (Z.ltb_spec (now - last_heartbeat w0) (60 * 1000000));
        [discriminate|].
      intros H' k ref w [[= <- <-]|Hin] Hw; [|eauto].
      rewrite E in Hw. injection Hw as <-. right. lia.
    + intros H' k ref w [[= <- <-]|Hin] Hw; [|eauto].
      rewrite E in Hw. injection Hw as <-. left. exact Hs.
  - intros H' k ref w [[= <- <-]|Hin] Hw; [congruence|eauto].
Qed.

(** The worker found is registered, idle, and its last heartbeat is less than
    60 seconds old; when none is found, every registered worker is busy or
    has a heartbeat that is 60 seconds old or older. *)
Theorem find_idle_worker_sound_complete :
  forall (r : Registry) (now : Z),
    (forall ref : nat,
        find_idle_worker r now = Some ref ->
        exists (k : string) (w : WorkerProxy),
          In (k, ref) (workers r) /\ heap r !! ref = Some w /\ wstatus w = "idle" /\
          now - last_heartbeat w < 60000000) /\
    (find_idle_worker r now = None ->
     forall (k : string) (ref : nat) (w : WorkerProxy),
       In (k, ref) (workers r) -> heap r !! ref = Some w ->
       wstatus w <> "idle" \/ 60000000 <= now - last_heartbeat w).
Proof.
  intros r now. split.
  - intros ref. apply first_idle_Some.
  - apply first_idle_None.
Qed.

Lemma find_idle_worker_sound_complete_witness :
  exists (k : string) (w : WorkerProxy),
    In (k, 0%nat) (workers img_worker) /\ heap img_worker !! 0%nat = Some w /\
    wstatus w = "idle" /\ 59999999 - last_heartbeat w < 60000000.
Proof.
  exact (proj1 (find_idle_worker_sound_complete img_worker 59999999) 0%nat eq_refl).
Defined.

Lemma dict_set_In {A} (k : string) (v : A) (d : list (string * A)) :
  In (k, v) (dict_set k v d) \/ exists k', String.eqb k k' = true /\ In (k', v) (dict_set k v d).
Proof.
  induction d as [|[k0 v0] rest IH]; simpl.
  - left. left. reflexivity.
  - destruct (String.eqb k k0) eqn:E.
    + right. exists k0. split; [exact E|]. left. reflexivity.
    + destruct IH as [H|(k' & He & H)]; [left; right; exact H|].
      right. exists k'. split; [exact He|]. right. exact H.
Qed.

Lemma first_idle_is_Some (now : Z) (hp : list WorkerProxy) (refs : list (string * nat))
      (k : string) (ref : nat) (w : WorkerProxy) :
  In (k, ref) refs -> hp !! ref = Some w -> wstatus w = "idle" ->
  now - last_heartbeat w < 60000000 ->
  exists ref', first_idle now hp refs = Some ref'.
Proof.
  intros Hin Hw Hs Hh. destruct (first_idle now hp refs) as [ref'|] eqn:E; [eauto|].
  exfalso. destruct (first_idle_None now hp refs E k ref w Hin Hw); [contradiction|lia].
Qed.

(** After a registration at time [t] the dispatch loop finds an idle worker
    at every instant less than 60 seconds later; a registry holding only that
    worker has no idle worker from 60 seconds on. *)
Theorem registered_worker_found_for_60s :
  forall (r : Registry) (worker_id url : string) (caps : list string) (t now : Z),
    (now - t < 60000000 ->
     exists ref, find_idle_worker (register_worker r worker_id url caps t) now = Some ref) /\
    (60000000 <= now - t ->
     find_idle_worker (register_worker (mkRegistry [] []) worker_id url caps t) now = None).
Proof.
  intros r worker_id url caps t now. split.
  - intros Hh. unfold find_idle_worker.
    assert (Hw : heap (register_worker r worker_id url caps t) !! length (heap r)
                 = Some (new_worker worker_id url caps t))
      by (apply list_lookup_middle; reflexivity).
    destruct (dict_set_In worker_id (length (heap r)) (workers r)) as [Hin|(k' & _ & Hin)];
      eapply first_idle_is_Some; eauto.
  - intros Hh. unfold find_idle_worker. simpl. unfold is_healthy. simpl.
    destruct (Z.ltb_spec (now - t) (60 * 1000000)); [lia|reflexivity].
Qed.

Lemma registered_worker_found_for_60s_witness :
  (exists ref, find_idle_worker (register_worker text_worker "w-img" "http://w" ["image"] 100)
                                59999999 = Some ref) /\
  find_idle_worker (register_worker (mkRegistry [] []) "w-img" "http://w" ["image"] 100)
                   60000100 = None.
Proof.
  split.
  - apply (proj1 (registered_worker_found_for_60s text_worker "w-img" "http://w" ["image"]
                    100 59999999)). lia.
  - apply (proj2 (registered_worker_found_for_60s text_worker "w-img" "http://w" ["image"]
                    100 60000100)). lia.
Defined.

Lemma dict_set_length {A} (k : string) (v : A) (d : list (string * A)) :
  length (dict_set k v d)
  = match dict_get k d with Some _ => length d | None => S (length d) end.
Proof.
  induction d as [|[k0 v0] rest IH]; simpl; [reflexivity|].
  destruct (String.eqb k k0); simpl; [reflexivity|].
  rewrite IH. destruct (dict_get k rest); reflexivity.
Qed.

(** A registration leaves the record of every other worker id as it was, and
    every object allocated before stays in place; the number of registered
    ids grows by one for a new id and stays the same for a known one. *)
Theorem register_worker_frame :
  forall (r : Registry) (worker_id url : string) (caps : list string) (now : Z),
    (forall (other : string) (w : WorkerProxy),
        other <> worker_id -> worker_of r other = Some w ->
        worker_of (register_worker r worker_id url caps now) other = Some w) /\
    (forall (ref : nat) (w : WorkerProxy),
        heap r !! ref = Some w ->
        heap (register_worker r worker_id url caps now) !! ref = Some w) /\
    length (workers (register_worker r worker_id url caps now))
    = match dict_get worker_id (workers r) with
      | Some _ => length (workers r)
      | None => S (length (workers r))
      end.
Proof.
  intros r worker_id url caps now. split; [|split].
  - intros other w Hne. unfold worker_of, register_worker. simpl.
    rewrite dict_get_set_other by congruence.
    destruct (dict_get other (workers r)); [|discriminate].
    apply lookup_app_l_Some.
  - intros ref w. apply register_worker_keeps_objects.
  - apply dict_set_length.
Qed.

Lemma register_worker_frame_witness :
  worker_of (register_worker text_worker "w-img" "http://w" ["image"] 100) "w-txt" = Some txt.
Proof.
  refine (proj1 (register_worker_frame text_worker "w-img" "http://w" ["image"] 100)
            "w-txt" txt _ eq_refl).
  discriminate.
Defined.

End IdleWorker.

(** ** The user reference of a request *)

Section UserRef.

Lemma no_colon_app (a b : string) :
  no_colon (a +:+ b) = no_colon a && no_colon b.
Proof.
  induction a as [|c a IH]; [reflexivity|].
  change (no_colon (String c (a +:+ b)) = no_colon (String c a) && no_colon b).
  cbn [no_colon]. rewrite IH. apply andb_assoc.
Qed.

Lemma append_assoc_one (cur : string) (c : Ascii.ascii) (s : string) :
  (cur +:+ String c EmptyString) +:+ s = cur +:+ String c s.
Proof.
  induction cur as [|d cur IH]; [reflexivity|].
  change (String d ((cur +:+ String c EmptyString) +:+ s) = String d (cur +:+ String c s)).
  f_equal. exact IH.
Qed.

Lemma append_empty_r (s : string) : s +:+ EmptyString = s.
Proof.
  induction s as [|d s IH]; [reflexivity|].
  change (String d (s +:+ EmptyString) = String d s). f_equal. exact IH.
Qed.

Lemma last_field_plain (s : string) :
  forall cur, no_colon s = true -> last_field cur s = cur +:+ s.
Proof.
  induction s as [|c s IH]; intros cur H; cbn [last_field].
  - symmetry. apply append_empty_r.
  - cbn [no_colon] in H. apply andb_true_iff in H as [Hc Hs].
    destruct (Ascii.eqb c (Ascii.ascii_of_nat 58)); [discriminate|].
    rewrite IH by exact Hs. apply append_assoc_one.
Qed.

Lemma last_field_after_colon (pre : string) :
  forall cur uid, no_colon uid = true ->
                  last_field cur (pre +:+ String (Ascii.ascii_of_nat 58) uid) = uid.
Proof.
  induction pre as [|c pre IH]; intros cur uid H; simpl.
  - apply (last_field_plain uid EmptyString H).
  - destruct (Ascii.eqb c (Ascii.ascii_of_nat 58)); apply IH; exact H.
Qed.

Lemma last_field_no_colon (s : string) :
  forall cur, no_colon cur = true -> no_colon (last_field cur s) = true.
Proof.
  induction s as [|c s IH]; intros cur H; cbn [last_field]; [exact H|].
  destruct (Ascii.eqb c (Ascii.ascii_of_nat 58)) eqn:E.
  - apply IH. reflexivity.
  - apply IH. rewrite no_colon_app, H. cbn [no_colon andb]. rewrite E. reflexivity.
Qed.

(** The user id taken from a reference is what follows its last colon: a
    reference "prefix:uid" whose uid has no colon gives uid, a reference
    without colon is taken whole, and the id never contains a colon.  The
    prefix plays no part in admission: the platform is the request's
    frontend, so "prefix:uid" and "uid" are the same user to [create_job]. *)
Theorem user_ref_last_field :
  forall (pre uid : string),
    no_colon uid = true ->
    last_field EmptyString (pre +:+ String (Ascii.ascii_of_nat 58) uid) = uid /\
    last_field EmptyString uid = uid /\
    (forall s : string, no_colon (last_field EmptyString s) = true) /\
    (forall (db : DB) (fe cap : string) (bot : option string) (ps : list (string * json))
            (rc : option (list (string * json))) (now : Z),
        create_job db (mkJobRequest fe bot cap
                                    (pre +:+ String (Ascii.ascii_of_nat 58) uid) ps rc) now
        = create_job db (mkJobRequest fe bot cap uid ps rc) now).
Proof.
  intros pre uid H.
  pose proof (last_field_after_colon pre EmptyString uid H) as H1.
  pose proof (last_field_plain uid EmptyString H) as H2. simpl in H2.
  split; [exact H1|]. split; [exact H2|]. split.
  - intros s. apply last_field_no_colon. reflexivity.
  - intros db fe cap bot ps rc now. unfold create_job. simpl. rewrite H1, H2. reflexivity.
Qed.

Lemma user_ref_last_field_witness :
  last_field EmptyString ("telegram" +:+ String (Ascii.ascii_of_nat 58) "42") = "42".
Proof.
  exact (proj1 (user_ref_last_field "telegram" "42" eq_refl)).
Defined.

End UserRef.

(** ** A pass of the dispatch loop *)

Section LoopPass.

Lemma select_next_job_tier (db : DB) (w : WorkerProxy) (j : Job) :
  select_next_job db w = Some j -> 0 <= priority j <= 3.
Proof.
  unfold select_next_job. cbn [first_queued].
  destruct (get_next_queued_job db 3 _) eqn:E3;
    [intros [= ->]; apply get_next_queued_job_Some in E3 as (_ & _ & Hp & _); lia|].
  destruct (get_next_queued_job db 2 _) eqn:E2;
    [intros [= ->]; apply get_next_queued_job_Some in E2 as (_ & _ & Hp & _); lia|].
  destruct (get_next_queued_job db 1 _) eqn:E1;
    [intros [= ->]; apply get_next_queued_job_Some in E1 as (_ & _ & Hp & _); lia|].
  destruct (get_next_queued_job db 0 _) eqn:E0;
    [intros [= ->]; apply get_next_queued_job_Some in E0 as (_ & _ & Hp & _); lia|].
  discriminate.
Qed.

(** A pass of the loop either leaves everything as it was, or creates exactly
    one task: for a registered worker that is idle with a heartbeat less than
    60 seconds old, and a job that is a QUEUED row of a priority in 0..3.  It
    does create a task whenever such a worker is found and such a row
    exists. *)
Theorem loop_pass_task :
  forall (w : World) (now : Z),
    (loop_pass w now = w \/
     exists (ref : nat) (worker : WorkerProxy) (job : Job),
       loop_pass w now
       = mkWorld (store w) (registry w) (created_tasks w ++ [(ref, job)]) (running_tasks w) /\
       heap (registry w) !! ref = Some worker /\ wstatus worker = "idle" /\
       now - last_heartbeat worker < 60000000 /\
       In job (jobs (store w)) /\ status job = "QUEUED" /\ 0 <= priority job <= 3) /\
    (forall (ref : nat) (j : Job),
        find_idle_worker (registry w) now = Some ref ->
        In j (jobs (store w)) -> status j = "QUEUED" -> 0 <= priority j <= 3 ->
        length (created_tasks (loop_pass w now)) = S (length (created_tasks w))).
Proof.
  intros w now. split.
  - unfold loop_pass.
    destruct (find_idle_worker (registry w) now) as [ref|] eqn:Ef; [|left; reflexivity].
    destruct (first_idle_Some _ _ _ _ Ef) as (k & wk & _ & Hw & Hs & Hh).
    rewrite Hw.
    destruct (select_next_job (store w) wk) as [job|] eqn:Es; [|left; reflexivity].
    right. exists ref, wk, job.
    destruct (select_next_job_queued _ _ _ Es) as [Hin Hq].
    pose proof (select_next_job_tier _ _ _ Es).
    repeat split; auto; lia.
  - intros ref j Ef Hin Hq Hr. unfold loop_pass. rewrite Ef.
    destruct (first_idle_Some _ _ _ _ Ef) as (k & wk & _ & Hw & _).
    rewrite Hw.
    destruct (select_next_job (store w) wk) as [job|] eqn:Es.
    + simpl. rewrite length_app. simpl. lia.
    + exfalso.
      assert (Hnone : forall j, In j (jobs (store w)) -> status j = "QUEUED" ->
                                priority j < 0 \/ 3 < priority j).
      { revert Es. unfold select_next_job. cbn [first_queued].
        destruct (get_next_queued_job (store w) 3 _) eqn:E3; [discriminate|].
        destruct (get_next_queued_job (store w) 2 _) eqn:E2; [discriminate|].
        destruct (get_next_queued_job (store w) 1 _) eqn:E1; [discriminate|].
        destruct (get_next_queued_job (store w) 0 _) eqn:E0; [discriminate|].
        intros _ j' Hj Hs.
        pose proof (get_next_queued_job_None _ _ _ E3 j' Hj Hs).
        pose proof (get_next_queued_job_None _ _ _ E2 j' Hj Hs).
        pose proof (get_next_queued_job_None _ _ _ E1 j' Hj Hs).
        pose proof (get_next_queued_job_None _ _ _ E0 j' Hj Hs).
        lia. }
      specialize (Hnone j Hin Hq). lia.
Qed.

Lemma loop_pass_task_witness :
  length (created_tasks (loop_pass world0 5)) = 1%nat.
Proof.
  exact (proj2 (loop_pass_task world0 5) 0%nat image_job eq_refl
               (or_introl eq_refl) eq_refl ltac:(simpl; lia)).
Defined.

End LoopPass.

(** ** Admission after a completed job *)

Section AfterBilling.

Lemma billed_lookup (usage : gmap (Z * Z) Usage) (job : Job) (day : Z) :
  exists u, billed usage job day !! (job_user_id job, day) = Some u.
Proof.
  unfold billed, update_usage. simpl. rewrite lookup_insert_eq. eauto.
Qed.

(** Once the completion of a job has been handled to its end, the usage row
    of the job's user for the day exists, and the quota check of every later
    request of that user on that day fails on it: the request is answered 500
    and no job is created, whatever the user's usage and limit are. *)
Theorem billed_user_admission_fails :
  forall (db db' db'' : DB) (job : Job) (response : json) (now day t : Z)
         (request : JobRequest) (user : UserPlan),
    handle_job_completion db job response now day = (db', None) ->
    get_or_create_user db' (req_frontend request)
                       (last_field EmptyString (req_user_ref request)) None
    = (db'', Some user) ->
    user_id (up_user user) = job_user_id job ->
    date_of t = day ->
    create_job db' request t = (db'', internal_server_error) /\ jobs db'' = jobs db'.
Proof.
  intros db db' db'' job response now day t request user Hc Hg Hu Hd.
  pose proof (handle_job_completion_cases db job response now day) as (_ & _ & _ & Hcase).
  rewrite Hc in Hcase. cbn [fst snd] in Hcase.
  destruct Hcase as [(e & He & _)|(_ & Hb & _)]; [discriminate|].
  destruct (billed_lookup (usage_daily db) job day) as [u Hl]. rewrite <- Hb in Hl.
  pose proof (get_or_create_user_keeps db' (req_frontend request)
                (last_field EmptyString (req_user_ref request)) None) as (Kj & Ku & _).
  rewrite Hg in Kj, Ku. cbn [fst] in Kj, Ku.
  split; [|exact Kj].
  unfold create_job. rewrite Hg. unfold get_usage. rewrite Hu, Hd, Ku, Hl. reflexivity.
Qed.

Lemma billed_user_admission_fails_witness :
  snd (create_job (fst (handle_job_completion (db_with [image_job]) image_job
                                              body_completed 20 0))
                  (request "image" [("capability", JStr "image")]) 1000)
  = internal_server_error.
Proof.
  exact (f_equal snd (proj1 (billed_user_admission_fails (db_with [image_job])
           (fst (handle_job_completion (db_with [image_job]) image_job body_completed 20 0))
           _ image_job body_completed 20 0 1000
           (request "image" [("capability", JStr "image")]) _
           eq_refl eq_refl eq_refl eq_refl))).
Defined.

End AfterBilling.

(** ** The bundled workers *)

Section BundledWorkers.

Lemma dispatch_job_end_returned (db : DB) (r : Registry) (ref : nat) (job : Job)
      (body : json) (c : Clock) :
  snd (handle_job_completion db job body (t_completed c) (today c)) = None ->
  fst (dispatch_job_end db r ref job (Response 200 (Some body)) c)
  = fst (handle_job_completion db job body (t_completed c) (today c)).
Proof.
  intros H. unfold dispatch_job_end. cbn [fst run_job is_success Z.leb Z.compare andb].
  change (is_success 200) with true. cbn iota.
  destruct (handle_job_completion db job body (t_completed c) (today c)) as [db1 [e|]];
    [discriminate|reflexivity].
Qed.

Lemma one_artifact_answer (db : DB) (r : Registry) (ref : nat) (job : Job) (c : Clock)
      (user : User) (kv item : list (string * json)) :
  get_user db (job_user_id job) = Some user ->
  json_get (JObj kv) "artifacts" (JArr []) = Some (JArr [JObj item]) ->
  accepted_item (JObj item) = true ->
  optional_number (default (JInt 0) (dict_get "execution_time_seconds" kv)) = true ->
  exists a : Artifact,
    artifacts (fst (dispatch_job_end db r ref job (Response 200 (Some (JObj kv))) c))
    = (artifacts db ++ [a])%list /\
    artifact_id a = artifacts_seq db /\ artifact_job_id a = id job /\ format a = "png" /\
    artifact_type a = default (JStr "image") (dict_get "type" item) /\
    local_path a = default JNull (dict_get "path" item) /\
    public_url a = default JNull (dict_get "url" item) /\
    artifact_metadata a = default (JObj []) (dict_get "metadata" item) /\
    usage_daily (fst (dispatch_job_end db r ref job (Response 200 (Some (JObj kv))) c))
    = billed (usage_daily db) job (today c) /\
    forall (n : nat) (row : Job),
      jobs db !! n = Some row -> id row = id job ->
      exists row',
        jobs (fst (dispatch_job_end db r ref job (Response 200 (Some (JObj kv))) c)) !! n
        = Some row' /\ status row' = "COMPLETED".
Proof.
  intros Hu Ha Hacc Hsec.
  assert (Hitems : forallb accepted_item [JObj item] = true).
  { cbn [forallb]. rewrite Hacc. reflexivity. }
  destruct (handle_job_completion_accepted db job (JObj kv) [JObj item] _ (t_completed c)
              (today c) user Ha Hitems eq_refl Hsec Hu)
    as (added & He & Hart & Hl & Hi & Hf & Ht & Hm & Hb & Hrows).
  rewrite (dispatch_job_end_returned db r ref job (JObj kv) c He).
  destruct added as [|a [|b rest]]; try discriminate Hl.
  exists a. cbn [List.map length] in *.
  pose proof (List.Forall_inv Hf) as [Hjob Hfmt].
  injection Ht as Ht. injection Hm as Hp Hurl Hmd.
  rewrite seqZ_cons in Hi by lia. injection Hi as Hid.
  repeat (split; [assumption|]).
  intros n row Hn Hid'. destruct (Hrows n row Hn Hid') as (row' & H1 & H2 & _). eauto.
Qed.

(** Each of the three bundled workers answers the payload of a dispatch (it
    finds the entries it reads), and for a job whose user exists the answer
    is handled to completion: one artifact row is appended, with the job's
    id, the next artifact id and the format png; every row of the job is
    COMPLETED and the job is billed once.  The image worker's artifact has the
    type image and its placeholder path and url; the text and audio workers'
    artifact has the type text, no path and no url; the text worker's metadata
    holds the text built from the prompt entry of the params (the empty string
    when there is none). *)
Theorem bundled_workers_complete_jobs :
  forall (db : DB) (r : Registry) (ref : nat) (job : Job) (c : Clock) (user : User)
         (fmt : json -> string) (answer : option json) (ty : string) (path md : json),
    get_user db (job_user_id job) = Some user ->
    In (answer, ty, path, md)
       [(comfyui_run_job (dispatch_payload job), "image", JStr "/tmp/dummy.png", JObj []);
        (koboldcpp_run_job fmt (dispatch_payload job), "text", JNull,
         JObj [("content",
                JStr ("Simulated response to: "
                      +:+ fmt (default (JStr "") (dict_get "prompt" (params job)))))]);
        (whisper_run_job (dispatch_payload job), "text", JNull,
         JObj [("transcription", JStr "Simulated transcription text.")])] ->
    exists (body : json) (a : Artifact),
      answer = Some body /\
      json_get body "job_id" JNull = Some (JStr (pretty (id job))) /\
      artifacts (fst (dispatch_job_end db r ref job (worker_exchange answer) c))
      = (artifacts db ++ [a])%list /\
      artifact_id a = artifacts_seq db /\ artifact_job_id a = id job /\
      format a = "png" /\ artifact_type a = JStr ty /\ local_path a = path /\
      artifact_metadata a = md /\
      usage_daily (fst (dispatch_job_end db r ref job (worker_exchange answer) c))
      = billed (usage_daily db) job (today c) /\
      forall (n : nat) (row : Job),
        jobs db !! n = Some row -> id row = id job ->
        exists row',
          jobs (fst (dispatch_job_end db r ref job (worker_exchange answer) c)) !! n
          = Some row' /\ status row' = "COMPLETED".
Proof.
  intros db r ref job c user fmt answer ty path md Hu Hin.
  destruct Hin as [H|[H|[H|[]]]]; injection H as <- <- <- <-.
  - cbn [comfyui_run_job dispatch_payload dict_get String.eqb Ascii.eqb Bool.eqb].
    cbn [worker_exchange].
    match goal with
    | |- context [Some (JObj ?kv) = Some _] =>
        destruct (one_artifact_answer db r ref job c user kv _ Hu eq_refl eq_refl eq_refl)
          as (a & Ha & H1 & H2 & H3 & H4 & H5 & _ & H7 & H8 & H9)
    end.
    eexists. exists a. split; [reflexivity|]. split; [reflexivity|].
    split; [exact Ha|]. repeat (split; [assumption|]). exact H9.
  - cbn [koboldcpp_run_job dispatch_payload dict_get String.eqb Ascii.eqb Bool.eqb json_get].
    cbn [worker_exchange].
    match goal with
    | |- context [Some (JObj ?kv) = Some _] =>
        destruct (one_artifact_answer db r ref job c user kv _ Hu eq_refl eq_refl eq_refl)
          as (a & Ha & H1 & H2 & H3 & H4 & H5 & _ & H7 & H8 & H9)
    end.
    eexists. exists a. split; [reflexivity|]. split; [reflexivity|].
    split; [exact Ha|]. repeat (split; [assumption|]). exact H9.
  - cbn [whisper_run_job dispatch_payload dict_get String.eqb Ascii.eqb Bool.eqb].
    cbn [worker_exchange].
    match goal with
    | |- context [Some (JObj ?kv) = Some _] =>
        destruct (one_artifact_answer db r ref job c user kv _ Hu eq_refl eq_refl eq_refl)
          as (a & Ha & H1 & H2 & H3 & H4 & H5 & _ & H7 & H8 & H9)
    end.
    eexists. exists a. split; [reflexivity|]. split; [reflexivity|].
    split; [exact Ha|]. repeat (split; [assumption|]). exact H9.
Qed.

Lemma bundled_workers_complete_jobs_witness :
  exists (body : json) (a : Artifact),
    whisper_run_job (dispatch_payload image_job) = Some body /\
    artifact_type a = JStr "text" /\ format a = "png".
Proof.
  destruct (bundled_workers_complete_jobs (db_with [image_job]) img_worker 0 image_job clock
              user42 (fun _ => EmptyString) (whisper_run_job (dispatch_payload image_job))
              "text" JNull
              (JObj [("transcription", JStr "Simulated transcription text.")])
              eq_refl (or_intror (or_intror (or_introl eq_refl))))
    as (body & a & Hb & _ & _ & _ & _ & Hf & Ht & _).
  exists body, a. auto.
Defined.

End BundledWorkers.

(** ** What admission writes *)

Section AdmissionWrites.

Lemma get_or_create_user_writes (db : DB) (pf uid : string) (ip : option string) :
  let db' := fst (get_or_create_user db pf uid ip) in
  plans db' = plans db /\ artifacts db' = artifacts db /\
  artifacts_seq db' = artifacts_seq db /\
  exists new : list User, users db' = (users db ++ new)%list /\ (length new <= 1)%nat.
Proof.
  unfold get_or_create_user.
  destruct (fetch_user_plan _ _ _).
  { simpl. repeat split. exists []. rewrite app_nil_r. auto. }
  destruct (_ || _); simpl; repeat split.
  - exists []. rewrite app_nil_r. auto.
  - eexists [_]. auto.
Qed.

(** Admission never writes the usage counters, the plans or the artifacts; it
    keeps every user row and adds at most one; a request answered with an
    error status creates no job, and any request adds at most one job row. *)
Theorem admission_writes :
  forall (db : DB) (request : JobRequest) (now : Z),
    usage_daily (fst (create_job db request now)) = usage_daily db /\
    plans (fst (create_job db request now)) = plans db /\
    artifacts (fst (create_job db request now)) = artifacts db /\
    (exists new : list User,
        users (fst (create_job db request now)) = (users db ++ new)%list /\
        (length new <= 1)%nat) /\
    (forall (code : Z) (detail : string),
        snd (create_job db request now) = HttpError code detail ->
        jobs (fst (create_job db request now)) = jobs db) /\
    (length (jobs db) <= length (jobs (fst (create_job db request now)))
     <= S (length (jobs db)))%nat.
Proof.
  intros db request now.
  split; [apply create_job_keeps_usage|].
  pose proof (get_or_create_user_writes db (req_frontend request)
                (last_field EmptyString (req_user_ref request)) None) as (Hp & Ha & _ & Hu).
  pose proof (get_or_create_user_keeps db (req_frontend request)
                (last_field EmptyString (req_user_ref request)) None) as (Hj & _ & _).
  unfold create_job.
  destruct (get_or_create_user _ _ _ _) as [db1 [user|]]; cbn [fst] in *.
  2:{ cbn [fst snd]. rewrite Hj. repeat split; auto. }
  destruct (getattr_tokens_used _).
  2:{ cbn [fst snd]. rewrite Hj. repeat split; auto. }
  destruct (dec_gtb _ _).
  { cbn [fst snd]. rewrite Hj. repeat split; auto. }
  cbn [fst snd]. unfold update_job, Database.create_job.
  cbn [fst snd jobs with_jobs plans artifacts users].
  rewrite length_map, length_app, Hj. cbn [length].
  repeat split; auto; try lia. intros; discriminate.
Qed.

Lemma admission_writes_witness :
  jobs (fst (create_job db_used_19_5 (request "image" [("capability", JStr "image")]) 1000))
  = jobs db_used_19_5.
Proof.
  exact (proj1 (proj2 (proj2 (proj2 (proj2
           (admission_writes db_used_19_5 (request "image" [("capability", JStr "image")])
                             1000)))))
           500 "Internal Server Error" eq_refl).
Defined.

End AdmissionWrites.

(** ** The Telegram bot *)

Section BotFacts.

Lemma filter_shorter {A} (f : A -> bool) (l : list A) :
  (length (List.filter f l) <= length l)%nat.
Proof.
  induction l as [|x l IH]; simpl; [lia|]. destruct (f x); simpl; lia.
Qed.

Lemma digit_no_colon (d : N) (s : string) :
  no_colon (String (pretty_N_char d) s) = no_colon s.
Proof.
  unfold pretty_N_char. repeat case_match; reflexivity.
Qed.

Lemma pretty_N_go_no_colon (x : N) :
  forall s, no_colon s = true -> no_colon (pretty_N_go x s) = true.
Proof.
  induction (N.lt_wf_0 x) as [x _ IH]; intros s Hs.
  destruct (N.eq_dec x 0) as [->|Hx]; [rewrite pretty_N_go_0; exact Hs|].
  rewrite pretty_N_go_step by lia. apply IH.
  - apply N.div_lt; lia.
  - rewrite digit_no_colon. exact Hs.
Qed.

Lemma pretty_N_no_colon (x : N) : no_colon (pretty x) = true.
Proof.
  unfold pretty, pretty_N. case_decide; [reflexivity|].
  apply pretty_N_go_no_colon. reflexivity.
Qed.

Lemma pretty_Z_no_colon (z : Z) : no_colon (pretty z) = true.
Proof.
  destruct z as [|p|p]; [reflexivity| |].
  - exact (pretty_N_no_colon (Npos p)).
  - change (no_colon (String (Ascii.ascii_of_nat 45) (pretty (Npos p))) = true).
    cbn [no_colon]. rewrite (pretty_N_no_colon (Npos p)). reflexivity.
Qed.

(** A request built by the bot is an image request on the frontend telegram
    whose cost is 1.0, whatever the prompt; the user id admission takes from
    its reference is the decimal text of the Telegram user id, so two
    Telegram users never share an identity. *)
Theorem bot_request_identity :
  forall (args : list string) (user_id chat_id message_id : Z),
    req_frontend (generate_payload args user_id chat_id message_id) = "telegram" /\
    req_capability (generate_payload args user_id chat_id message_id) = "image" /\
    calculate_token_cost (req_params (generate_payload args user_id chat_id message_id))
    = dec_1_0 /\
    last_field EmptyString (req_user_ref (generate_payload args user_id chat_id message_id))
    = pretty user_id /\
    (forall (args' : list string) (user_id' chat_id' message_id' : Z),
        last_field EmptyString
          (req_user_ref (generate_payload args' user_id' chat_id' message_id'))
        = last_field EmptyString
            (req_user_ref (generate_payload args user_id chat_id message_id)) ->
        user_id' = user_id).
Proof.
  intros args user_id chat_id message_id.
  assert (H : forall a u c m,
             last_field EmptyString (req_user_ref (generate_payload a u c m)) = pretty u).
  { intros a u c m. cbn [generate_payload req_user_ref].
    apply last_field_after_colon, pretty_Z_no_colon. }
  repeat split; try reflexivity; [apply H|].
  intros args' user_id' chat_id' message_id'. rewrite !H.
  apply (inj pretty).
Qed.

Lemma bot_request_identity_witness :
  last_field EmptyString (req_user_ref (generate_payload ["a"; "dog"] 42 8 10))
  = last_field EmptyString (req_user_ref (generate_payload ["a"; "cat"] 42 7 9)) /\
  42 = 42.
Proof.
  split; [reflexivity|].
  exact (proj2 (proj2 (proj2 (proj2 (bot_request_identity ["a"; "cat"] 42 7 9))))
               ["a"; "dog"] 42 8 10 eq_refl).
Defined.

(** The command without arguments sends nothing and leaves the store as it
    was.  With arguments it never writes the usage counters, and on a store
    whose job ids lie below the sequence it ends in one of two ways: the
    reply "Job Queued!" names the id of the one job row appended, which is a
    QUEUED image job of cost 1.0 on the frontend telegram, and gives 20
    seconds per position in the queue; or the reply is "Quota exceeded!" or
    "Failed to create job." and the jobs table is what it was. *)
Theorem generate_reply :
  forall (db : DB) (args : list string) (user_id chat_id message_id now : Z),
    generate db [] user_id chat_id message_id now
    = (db, "Please provide a prompt. Example: /generate a cat") /\
    usage_daily (fst (generate db args user_id chat_id message_id now)) = usage_daily db /\
    (args <> [] -> jobs_fresh db = true ->
     (exists row : Job,
         jobs (fst (generate db args user_id chat_id message_id now))
         = (jobs db ++ [row])%list /\
         status row = "QUEUED" /\ capability row = "image" /\ frontend row = "telegram" /\
         dec_eqb (cost_tokens row) dec_1_0 = true /\
         exists position : Z,
           0 <= position <= Z.of_nat (length (jobs db)) /\
           snd (generate db args user_id chat_id message_id now)
           = "Job Queued! ID: " +:+ pretty (id row)
             +:+ String (Ascii.ascii_of_nat 10)
                   ("Est time: " +:+ pretty ((position + 1) * 20) +:+ "s")) \/
     ((snd (generate db args user_id chat_id message_id now) = "Quota exceeded!" \/
       snd (generate db args user_id chat_id message_id now) = "Failed to create job.") /\
      jobs (fst (generate db args user_id chat_id message_id now)) = jobs db)).
Proof.
  intros db args user_id chat_id message_id now.
  split; [reflexivity|]. split.
  { destruct args as [|a rest]; [reflexivity|]. unfold generate.
    pose proof (create_job_keeps_usage db
                  (generate_payload (a :: rest) user_id chat_id message_id) now) as H.
    destruct (create_job _ _ _) as [db' res]. exact H. }
  intros Hargs Hf. destruct args as [|a rest]; [contradiction|]. unfold generate.
  set (rq := generate_payload (a :: rest) user_id chat_id message_id).
  pose proof (create_job_error_keeps_jobs db rq now) as Herr.
  pose proof (create_job_appends db (fst (create_job db rq now)) rq now) as Hok.
  destruct (create_job db rq now) as [db' [resp|code detail]]; cbn [fst snd] in *.
  - left. destruct (Hok resp Hf eq_refl)
      as (row & Hj & Hid & Hrid & Hs & _ & Hcap & Hfe & _ & _ & _ & _ & _ & _ & _ & _ & _
          & Hcost & _ & Hq & Hest & _).
    exists row. repeat (split; [assumption|]).
    exists (queue_position resp). split.
    + rewrite Hq. split; [lia|]. apply inj_le, filter_shorter.
    + unfold reply_of. rewrite Hest, Hrid, Hid. reflexivity.
  - right. split; [|exact (Herr code detail eq_refl)].
    unfold reply_of. destruct (code =? 402); auto.
Qed.

Lemma generate_reply_witness :
  exists row : Job,
    jobs (fst (generate empty_db ["a"; "cat"] 42 7 9 1000)) = [row] /\
    status row = "QUEUED" /\ capability row = "image".
Proof.
  destruct (proj2 (proj2 (generate_reply empty_db ["a"; "cat"] 42 7 9 1000))
              ltac:(discriminate) eq_refl) as [(row & Hj & Hs & Hc & _)|[_ Hj]].
  - exists row. auto.
  - exfalso. vm_compute in Hj. discriminate Hj.
Defined.

End BotFacts.

(** ** Job ids *)

Section JobIds.

Lemma touches_only_ids (k : Z) (db db' : DB) :
  touches_only k db db' -> List.map id (jobs db') = List.map id (jobs db).
Proof.
  intros [L T]. apply list_eq. intros n.
  change (List.map id (jobs db') !! n) with ((id <$> jobs db') !! n).
  change (List.map id (jobs db) !! n) with ((id <$> jobs db) !! n).
  rewrite !list_lookup_fmap.
  destruct (jobs db !! n) as [row|] eqn:E.
  - destruct (T n row E) as (row' & H' & Hid & _). rewrite H'. simpl. congruence.
  - apply lookup_ge_None in E. rewrite (proj2 (lookup_ge_None (jobs db') n)) by lia.
    reflexivity.
Qed.

Lemma handle_job_completion_seq (db : DB) (job : Job) (response : json) (now day : Z) :
  jobs_seq (fst (handle_job_completion db job response now day)) = jobs_seq db.
Proof.
  unfold handle_job_completion.
  destruct (json_get response "artifacts" _); [|reflexivity].
  destruct (json_get response "execution_time_seconds" _); [|reflexivity].
  destruct (json_iter _) as [items|]; [|reflexivity].
  pose proof (save_artifacts_keeps items db job []) as (_ & _ & _ & _ & Hs).
  destruct (save_artifacts db job items []) as [db1 [ids|e]]; cbn [fst] in *; [|exact Hs].
  cbv zeta. destruct (update_job_refused _); [exact Hs|].
  destruct (get_user _ _); cbn [fst]; exact Hs.
Qed.

Lemma dispatch_job_seq (db : DB) (r : Registry) (ref : nat) (job : Job)
      (x : Exchange) (c : Clock) :
  jobs_seq (fst (dispatch_job db r ref job x c)) = jobs_seq db.
Proof.
  rewrite dispatch_job_begin_end. unfold dispatch_job_end. cbn [fst].
  set (db1 := fst (dispatch_job_begin db r ref job c)).
  assert (H1 : jobs_seq db1 = jobs_seq db) by reflexivity.
  destruct (run_job x) as [response|e]; [|exact H1].
  pose proof (handle_job_completion_seq db1 job response (t_completed c) (today c)) as Hs.
  destruct (handle_job_completion db1 job response (t_completed c) (today c))
    as [db2 [e|]]; cbn [fst] in *; [|congruence].
  change (jobs_seq (handle_job_failure db2 job "DISPATCH_ERROR" e (t_failed c)))
    with (jobs_seq db2). congruence.
Qed.

(** On a store whose job ids are pairwise distinct and lie below the
    sequence, admission and dispatch keep it so: a dispatch leaves the ids of
    the rows exactly as they were, row for row, and an admission adds at most
    one row, with an id no other row has. *)
Theorem job_ids_stay_distinct :
  forall (db : DB),
    jobs_fresh db = true -> List.NoDup (List.map id (jobs db)) ->
    (forall (r : Registry) (ref : nat) (job : Job) (x : Exchange) (c : Clock),
        List.map id (jobs (fst (dispatch_job db r ref job x c))) = List.map id (jobs db) /\
        jobs_fresh (fst (dispatch_job db r ref job x c)) = true) /\
    (forall (request : JobRequest) (now : Z),
        List.NoDup (List.map id (jobs (fst (create_job db request now)))) /\
        jobs_fresh (fst (create_job db request now)) = true).
Proof.
  intros db Hf Hnd. pose proof (proj1 (jobs_fresh_spec db) Hf) as Hlt. split.
  - intros r ref job x c.
    destruct (dispatch_job_touches db r ref job x c) as (T & _).
    pose proof (touches_only_ids _ _ _ T) as Hids. split; [exact Hids|].
    apply jobs_fresh_spec. intros j Hj. rewrite dispatch_job_seq.
    assert (Hin : In (id j) (List.map id (jobs db)))
      by (rewrite <- Hids; apply in_map; exact Hj).
    apply in_map_iff in Hin as (j0 & <- & Hj0). exact (Hlt j0 Hj0).
  - intros request now.
    pose proof (create_job_error_keeps_jobs db request now) as Herr.
    pose proof (create_job_appends db (fst (create_job db request now)) request now) as Hok.
    pose proof (get_or_create_user_keeps db (req_frontend request)
                  (last_field EmptyString (req_user_ref request)) None) as (_ & _ & Hq).
    assert (Hseq : forall code detail,
               snd (create_job db request now) = HttpError code detail ->
               jobs_seq (fst (create_job db request now)) = jobs_seq db).
    { unfold create_job.
      destruct (get_or_create_user _ _ _ _) as [db1 [user|]]; cbn [fst snd] in *; [|auto].
      destruct (getattr_tokens_used _); [|auto].
      destruct (dec_gtb _ _); [auto|]. intros; discriminate. }
    destruct (create_job db request now) as [db' [resp|code detail]]; cbn [fst snd] in *.
    + destruct (Hok resp Hf eq_refl) as (row & Hj & Hid & H').
      split; [|intuition].
      rewrite Hj, map_app. cbn [List.map]. rewrite Hid.
      apply NoDup_ListNoDup, NoDup_app. split; [apply NoDup_ListNoDup; exact Hnd|]. split.
      * intros k Hk Hone. apply list_elem_of_In in Hk.
        apply in_map_iff in Hk as (j0 & <- & Hj0).
        apply list_elem_of_singleton in Hone. specialize (Hlt j0 Hj0). lia.
      * apply NoDup_singleton.
    + rewrite (Herr code detail eq_refl). split; [exact Hnd|].
      apply jobs_fresh_spec. rewrite (Herr code detail eq_refl), (Hseq code detail eq_refl).
      exact Hlt.
Qed.

Lemma job_ids_stay_distinct_witness :
  List.map id (jobs (fst (dispatch_job (db_with [job_A]) img_worker 0 job_A
                                       (Response 500 None) clock)))
  = List.map id (jobs (db_with [job_A])).
Proof.
  refine (proj1 (proj1 (job_ids_stay_distinct (db_with [job_A]) eq_refl _)
                   img_worker 0%nat job_A (Response 500 None) clock)).
  constructor; [intros []|constructor].
Defined.

End JobIds.

(** ** The outcome of the quota check *)

Section QuotaOutcome.

Lemma cost_gtb_limit (params : list (string * json)) (limit : Z) :
  dec_gtb (dec_add (dec_of_int 0) (calculate_token_cost params)) (dec_of_int limit)
  = (limit <? 1).
Proof.
  destruct (calculate_token_cost_cases params) as [[_ ->]|[_ ->]];
    unfold dec_gtb, dec_add, dec_at, dec_of_int, dec_1_0, dec_0_5;
    cbn [dcoef dexp];
    change (Z.min 0 (-1)) with (-1); change (Z.min (-1) 0) with (-1);
    change (0 - -1) with 1; change (-1 - -1) with 0;
    change (10 ^ 1) with 10; change (10 ^ 0) with 1;
    rewrite Z.gtb_ltb;
    match goal with |- (?a <? ?b) = _ => destruct (Z.ltb_spec a b) end;
    destruct (Z.ltb_spec limit 1); lia.
Qed.

(** The answer to a request is decided as follows.  It is 500 when the user
    lookup returns no row, and when the user has a usage row for the day.
    Otherwise the answer depends on the plan's limit alone: 402 when the
    limit is 0 or less, and an admitted job when it is 1 or more, whatever
    the capability. *)
Theorem admission_outcome :
  forall (db db1 : DB) (request : JobRequest) (now : Z) (found : option UserPlan),
    get_or_create_user db (req_frontend request)
                       (last_field EmptyString (req_user_ref request)) None
    = (db1, found) ->
    match found with
    | None => create_job db request now = (db1, internal_server_error)
    | Some user =>
        match usage_daily db1 !! (user_id (up_user user), date_of now) with
        | Some _ => create_job db request now = (db1, internal_server_error)
        | None =>
            if up_daily_token_limit user <? 1
            then create_job db request now = (db1, HttpError 402 "Insufficient quota")
            else exists resp, snd (create_job db request now) = Http200 resp /\
                              resp_status resp = "QUEUED"
        end
    end.
Proof.
  intros db db1 request now found Hg. unfold create_job. rewrite Hg.
  destruct found as [user|]; [|reflexivity].
  unfold get_usage.
  destruct (usage_daily db1 !! (user_id (up_user user), date_of now)); [reflexivity|].
  cbn [getattr_tokens_used]. rewrite cost_gtb_limit. unfold limit_of.
  destruct (up_daily_token_limit user <? 1); [reflexivity|].
  destruct (Database.create_job db1 _) as [db2 job_id]. eexists. split; reflexivity.
Qed.

Lemma admission_outcome_witness :
  create_job db_limit_0 (request "text" [("capability", JStr "text")]) 1000
  = (db_limit_0, HttpError 402 "Insufficient quota").
Proof.
  exact (admission_outcome db_limit_0 db_limit_0
           (request "text" [("capability", JStr "text")]) 1000
           (Some (mkUserPlan user42 0 0)) eq_refl).
Defined.

End QuotaOutcome.

(** ** Heartbeats *)

Section Heartbeat.

(** After a heartbeat the registry holds, for the worker id, a record with
    the url and capabilities sent, or "http://localhost:8188" and [image]
    where the heartbeat sent none; the record is idle, and it counts as
    healthy at every instant less than 60 seconds after. *)
Theorem heartbeat_registers :
  forall (r : Registry) (worker_id : string) (url : option string)
         (caps : option (list string)) (t : Z),
    worker_of (heartbeat r worker_id url caps t) worker_id
    = Some (mkWorker worker_id (default "http://localhost:8188" url)
                     (default ["image"] caps) "idle" [] t) /\
    forall (now : Z) (w : WorkerProxy),
      worker_of (heartbeat r worker_id url caps t) worker_id = Some w ->
      (is_healthy now w = true <-> now - t < 60000000).
Proof.
  intros r worker_id url caps t.
  pose proof (register_worker_replaces_record r worker_id
                (default "http://localhost:8188" url) (default ["image"] caps) t) as H.
  split; [exact H|].
  intros now w Hw. unfold heartbeat in Hw. rewrite H in Hw. injection Hw as <-.
  unfold is_healthy. simpl. rewrite Z.ltb_lt. lia.
Qed.

Lemma heartbeat_registers_witness :
  is_healthy 59999999 (mkWorker "w" "http://localhost:8188" ["image"] "idle" [] 0) = true.
Proof.
  apply (proj2 (heartbeat_registers (mkRegistry [] []) "w" None None 0) 59999999 _ eq_refl).
  lia.
Defined.

End Heartbeat.

(** ** Malformed artifact items *)

Section PartialArtifacts.

Lemma save_artifacts_app (l1 l2 : list json) :
  forall (db : DB) (job : Job) (ids : list Z),
    save_artifacts db job (l1 ++ l2) ids
    = match save_artifacts db job l1 ids with
      | (db1, inl ids1) => save_artifacts db1 job l2 ids1
      | (db1, inr e) => (db1, inr e)
      end.
Proof.
  induction l1 as [|a rest IH]; intros db job ids; [reflexivity|].
  cbn [app save_artifacts].
  destruct (json_get a "type" _); [|reflexivity].
  destruct (json_get a "path" _); [|reflexivity].
  destruct (json_get a "url" _); [|reflexivity].
  destruct (json_get a "metadata" _); [|reflexivity].
  cbv zeta. destruct (create_artifact_refused _); [reflexivity|].
  destruct (create_artifact db _) as [db' aid]. apply IH.
Qed.

(** A returned body whose artifact list holds an item that is not a dict,
    after items that are accepted, fails the job: every row of the job is
    FAILED with the code DISPATCH_ERROR and the usage counters are what they
    were.  The artifact rows of the items before it stay recorded, one per
    item, and no row is recorded for the items after it. *)
Theorem malformed_artifact_fails_job :
  forall (db : DB) (r : Registry) (ref : nat) (job : Job) (c : Clock)
         (kv : list (string * json)) (good rest : list json) (bad : json),
    dict_get "artifacts" kv = Some (JArr (good ++ bad :: rest)) ->
    forallb accepted_item good = true -> is_dict bad = false ->
    exists added : list Artifact,
      artifacts (fst (dispatch_job_end db r ref job (Response 200 (Some (JObj kv))) c))
      = (artifacts db ++ added)%list /\
      length added = length good /\
      usage_daily (fst (dispatch_job_end db r ref job (Response 200 (Some (JObj kv))) c))
      = usage_daily db /\
      forall (n : nat) (row : Job),
        jobs db !! n = Some row -> id row = id job ->
        exists row',
          jobs (fst (dispatch_job_end db r ref job (Response 200 (Some (JObj kv))) c)) !! n
          = Some row' /\
          status row' = "FAILED" /\ error_code row' = Some (JStr "DISPATCH_ERROR").
Proof.
  intros db r ref job c kv good rest bad Ha Hg Hb.
  destruct (save_artifacts_accepted good db job [] Hg) as (added & Hs & Hl & _).
  exists added.
  assert (Hsave : save_artifacts db job (good ++ bad :: rest) []
                  = (with_artifacts (artifacts db ++ added)
                                    (artifacts_seq db + Z.of_nat (length good)) db,
                     inr "object has no attribute 'get'")).
  { rewrite save_artifacts_app, Hs. cbn [save_artifacts].
    destruct bad; try discriminate Hb; reflexivity. }
  unfold dispatch_job_end. cbn [fst run_job]. change (is_success 200) with true. cbn iota.
  unfold handle_job_completion. cbn [json_get]. rewrite Ha.
  cbn [default Datatypes.id json_iter].
  rewrite Hsave. cbn iota beta.
  set (db1 := with_artifacts _ _ db).
  split; [reflexivity|]. split; [exact Hl|]. split; [reflexivity|].
  intros n row Hn Hid.
  destruct (handle_job_failure_row db1 job "DISPATCH_ERROR"
              "object has no attribute 'get'" (t_failed c) n row Hn Hid)
    as (row' & H1 & H2 & _ & H4).
  exists row'. split; [exact H1|]. split; [exact H2|].
  unfold error_code. rewrite H4. reflexivity.
Qed.

Lemma malformed_artifact_fails_job_witness :
  exists added : list Artifact,
    artifacts (fst (dispatch_job_end (db_with [image_job]) img_worker 0 image_job
                      (Response 200
                         (Some (JObj [("artifacts",
                                       JArr [JObj [("type", JStr "image")];
                                             JStr "oops"])]))) clock))
    = added /\ length added = 1%nat.
Proof.
  destruct (malformed_artifact_fails_job (db_with [image_job]) img_worker 0 image_job clock
              [("artifacts", JArr [JObj [("type", JStr "image")]; JStr "oops"])]
              [JObj [("type", JStr "image")]] [] (JStr "oops") eq_refl eq_refl eq_refl)
    as (added & Ha & Hl & _).
  exists added. split; [exact Ha|exact Hl].
Defined.

End PartialArtifacts.
